(** * The message log of interact.js

    The page script keeps its notifications in the table [#msg_tbl]:
    [msg_add] writes one row per message and evicts the oldest rows so
    that the table stays short, [msg_clear] empties it.  This file embeds
    both functions, together with the DOM and language primitives they
    use, and proves the properties of the log stated for them.

    Modelling boundary.  The browser is not part of the repository.  The
    table is modelled twice.  The row model takes the table as the
    sequence of its [tr] elements in document order, each with the three
    cell texts that the row template of [msg_add] interpolates, and the
    assignment of [innerHTML] as building one element per row written:
    this is what the browser does for texts that carry no markup.  The
    module [Page] takes the table as the browser holds it: [msg_add]
    splices the texts into HTML, and the HTML of the whole table is
    written out and parsed again by every call, so that markup in a text
    counts.  On texts without markup both leave the same rows, as is
    proved below.
    The page always has the element [#msg_tbl]: the page template
    declares it. *)

From Stdlib Require Import Ascii QArith Qround Lqa.
From stdpp Require Import base numbers list strings pretty gmap.
From Equations Require Import Equations.

Open Scope string_scope.
Open Scope nat_scope.
Open Scope list_scope.

(** ** Values and their text *)

(** The values that reach [msg_add]: string and number literals of the
    call sites and the scalars of a decoded JSON response
    ([res.message] is [undefined] when the response has no such field).
    Numbers are integers; the language holds them exactly, and prints
    them in plain decimal notation, when they are safe integers. *)
Inductive value :=
| VUndefined
| VNull
| VBool (b : bool)
| VNum (n : Z)
| VStr (s : string).

(** The integers that are numbers of the language and print in plain
    decimal notation: the safe integers. *)
Definition safe_integer (n : Z) : Prop := (- 2 ^ 53 < n < 2 ^ 53)%Z.

(** The text a template literal substitutes for [${v}]; for a number,
    its decimal notation, which is its text when it is a safe
    integer. *)
Definition to_string (v : value) : string :=
  match v with
  | VUndefined => "undefined"
  | VNull => "null"
  | VBool true => "true"
  | VBool false => "false"
  | VNum n => pretty n
  | VStr s => s
  end.

(** A [Date] object, known by the text [${new Date()}] puts in a row. *)
Record Date := { date_text : string }.

(** A parameter with a default ([level=1]): the default is taken when
    the argument is omitted, or passed as [undefined]. *)
Definition default_param (arg : option value) (dflt : value) : value :=
  match arg with
  | None | Some VUndefined => dflt
  | Some v => v
  end.

(** ** The table *)

(** One [tr] of the table: the texts of its first three cells.  This
    is the row that comes of texts without markup; what markup in a text
    does to the table is followed in the module [Page] below. *)
Record Row := { timestamp : string; level : string; message : string }.

(** [<tr><td>${new Date()}</td><td>${level}</td><td>${msg}</td><td></td></tr>] *)
Definition row_template (now : Date) (level msg : value) : Row :=
  {| timestamp := date_text now;
     level := to_string level;
     message := to_string msg |}.

Definition outerHTML (r : Row) : string :=
  "<tr><td>" +:+ timestamp r +:+ "</td><td>" +:+ level r +:+
  "</td><td>" +:+ message r +:+ "</td><td></td></tr>".

(** The rows of [#msg_tbl], oldest first. *)
Abbreviation Table := (list Row).

Definition innerHTML (t : Table) : string :=
  foldr (λ r s, outerHTML r +:+ s) "" t.

(** An element object.  The script tells two elements apart by identity,
    not by content: [ref] is the position the element had in the table
    when the table's HTML was parsed, which names it uniquely until the
    next parse. *)
Record Elem := { ref : nat; row : Row }.

Definition parse (t : Table) : list Elem := imap Build_Elem t.

(** The document while the script runs: the elements attached to
    [#msg_tbl], and the contents the table had after each mutation so
    far (oldest first). *)
Record Dom := { attached : list Elem; history : list Table }.

Definition contents (d : Dom) : Table := row <$> attached d.

Definition open (t : Table) : Dom := {| attached := parse t; history := [] |}.

Definition mutate (els : list Elem) (d : Dom) : Dom :=
  {| attached := els; history := history d ++ [row <$> els] |}.

(** ** Scripts: state and exceptions *)

Inductive exn := TypeError.

Inductive result (A : Type) :=
| Ok (a : A)
| Throw (e : exn).
Arguments Ok {A} a.
Arguments Throw {A} e.

Definition M (A : Type) : Type := Dom → result (A * Dom).

Definition ret {A} (a : A) : M A := λ d, Ok (a, d).

Definition bind {A B} (m : M A) (k : A → M B) : M B :=
  λ d, match m d with
       | Ok (a, d') => k a d'
       | Throw e => Throw e
       end.

Definition throw {A} (e : exn) : M A := λ _, Throw e.

Declare Scope script_scope.
Delimit Scope script_scope with script.
Notation "x ← y ; z" := (bind y (λ x, z))
  (at level 20, y at level 100, z at level 200) : script_scope.
Notation "x ;; z" := (bind x (λ _, z))
  (at level 100, z at level 200, right associativity) : script_scope.
Open Scope script_scope.

(** [$('#msg_tbl tr')]: the row elements, in document order. *)
Definition select_rows : M (list Elem) := λ d, Ok (attached d, d).

(** [rows[i]] as the receiver of a method call: past the end it is
    [undefined], and the call throws. *)
Definition receiver (rows : list Elem) (i : nat) : M Elem :=
  match rows !! i with
  | Some e => ret e
  | None => throw TypeError
  end.

(** [e.remove()]: detaches the element; no effect when it is not
    attached. *)
Definition remove (e : Elem) : M unit :=
  λ d, Ok (tt, mutate (filter (λ x, ref x ≠ ref e) (attached d)) d).

(** [msg_tbl.innerHTML += row]: the table is rebuilt from its serialised
    rows followed by the new one.  One row per call is what the
    assignment builds from texts without markup ([Page.set_innerHTML]
    parses the HTML). *)
Definition innerHTML_append (r : Row) : M unit :=
  λ d, Ok (tt, mutate (parse (contents d ++ [r])) d).

(** [msg_tbl.innerHTML = ''] *)
Definition innerHTML_clear : M unit :=
  λ d, Ok (tt, mutate (parse []) d).

(** ** The source functions *)

Definition max_msg_cnt : nat := 5.

Definition msg_clear : M unit := innerHTML_clear.

(** The loop of [msg_add]:
    [while (cnt >= max_msg_cnt) { rows[i].remove(); i++; cnt-- }].
    The test comes first, as in the source; it fails at [cnt = 0], so
    the branch [O] below is never taken. *)
Fixpoint evict (rows : list Elem) (i cnt : nat) : M unit :=
  if decide (max_msg_cnt ≤ cnt) then
    match cnt with
    | S cnt' => e ← receiver rows i; remove e;; evict rows (S i) cnt'
    | O => ret tt
    end
  else ret tt.

Definition msg_add (now : Date) (msg : value) (level : option value) : M unit :=
  let level := default_param level (VNum 1) in
  let row := row_template now level msg in
  rows ← select_rows;
  evict rows 0 (length rows);;
  innerHTML_append row.

(** ** Callers *)

(** A decoded response of the server. *)
Record Response := { status : value; res_message : value }.

(** The truth value of a condition [if (v)]. *)
Definition truthy (v : value) : bool :=
  match v with
  | VUndefined | VNull => false
  | VBool b => b
  | VNum n => negb (n =? 0)%Z
  | VStr s => negb (String.eqb s "")
  end.


(** A call of one of the two operations of the log. *)
Inductive call :=
| Add (now : Date) (msg : value) (level : option value)
| Clear.

Definition perform (c : call) : M unit :=
  match c with
  | Add now msg level => msg_add now msg level
  | Clear => msg_clear
  end.

Fixpoint perform_all (cs : list call) : M unit :=
  match cs with
  | [] => ret tt
  | c :: cs => perform c;; perform_all cs
  end.

(** Running a script on a table: the table it leaves, and the sequence
    of contents the table went through. *)
Definition exec {A} (m : M A) (t : Table) : result Table :=
  match m (open t) with
  | Ok (_, d) => Ok (contents d)
  | Throw e => Throw e
  end.

Definition trace {A} (m : M A) (t : Table) : result (list Table) :=
  match m (open t) with
  | Ok (_, d) => Ok (history d)
  | Throw e => Throw e
  end.

(** The row a call of [msg_add] writes. *)
Definition row_of (now : Date) (msg : value) (level : option value) : Row :=
  row_template now (default_param level (VNum 1)) msg.

Definition info : option value := Some (VStr "INFO").
Definition error : option value := Some (VStr "ERROR").

(** ** Vocabulary of the statements *)

(** The number of rows the loop detaches from a table of [k] rows. *)
Definition excess (k : nat) : nat := k - (max_msg_cnt - 1).

(** The contents the table goes through while the loop detaches
    [n] rows of [t], the first [i] being gone already. *)
Definition shrinking (t : Table) (i n : nat) : list Table :=
  (λ j, drop j t) <$> seq (S i) n.

(** The table a call leaves, and the contents it goes through. *)
Definition step (c : call) (t : Table) : Table :=
  match c with
  | Add now msg level => drop (excess (length t)) t ++ [row_of now msg level]
  | Clear => []
  end.

Definition step_journal (c : call) (t : Table) : list Table :=
  match c with
  | Add _ _ _ => shrinking t 0 (excess (length t)) ++ [step c t]
  | Clear => [[]]
  end.

Fixpoint journal (cs : list call) (t : Table) : list Table :=
  match cs with
  | [] => []
  | c :: cs => step_journal c t ++ journal cs (step c t)
  end.

Definition appends (args : list (Date * value * option value)) : list call :=
  (λ a, Add a.1.1 a.1.2 a.2) <$> args.

(** Sample data. *)
Definition noon : Date :=
  {| date_text := "Mon Nov 02 2026 12:00:00 GMT+0100 (CET)" |}.

Definition five_rows : Table :=
  [row_of noon (VStr "a") info; row_of noon (VStr "b") error;
   row_of noon (VStr "c") None; row_of noon VUndefined (Some (VNum 2));
   row_of noon (VStr "e") info].

Definition refused : Response :=
  {| status := VBool false; res_message := VStr "no such item" |}.

(** * The other functions of the script *)

(** ** Dates and durations as text *)

(** [fmtDateNumber(n)], for an integer [n]. *)
Definition fmtDateNumber (n : Z) : string :=
  (if decide (n < 10)%Z then "0" else "") +:+ pretty n.

(** What the getters of a valid [Date] return: [getYear] counts from
    1900 and [getMonth] from 0. *)
Record DateFields := {
  getYear : Z; getMonth : Z; getDate : Z;
  getHours : Z; getMinutes : Z; getSeconds : Z }.

(** The argument of [timeStampString]: a string or a [Date]. *)
Inductive stamp :=
| StampString (s : string)
| StampDate (t : DateFields).

Definition timeStampString (t : stamp) : string :=
  match t with
  | StampString s => s
  | StampDate t =>
      let year := (getYear t + 1900)%Z in
      let month := fmtDateNumber (getMonth t + 1) in
      let day := fmtDateNumber (getDate t) in
      let hour := fmtDateNumber (getHours t) in
      let minute := fmtDateNumber (getMinutes t) in
      let second := fmtDateNumber (getSeconds t) in
      pretty year +:+ "-" +:+ month +:+ "-" +:+ day +:+
      " " +:+ hour +:+ ":" +:+ minute +:+ ":" +:+ second
  end.

(** The two loops of [fmtDuration], on a whole number of seconds:
    [while (seconds > 3599) { hours++; seconds -= 3600 }] and
    [while (seconds > 59) { minutes++; seconds -= 60 }].  On safe
    integers every subtraction and every count is exact. *)
Equations? hours_loop (hours seconds : Z) : Z * Z
  by wf (Z.to_nat seconds) lt :=
  hours_loop hours seconds with decide (3599 < seconds)%Z => {
    | left _ := hours_loop (hours + 1)%Z (seconds - 3600)%Z;
    | right _ := (hours, seconds) }.
Proof. lia. Qed.

Equations? minutes_loop (minutes seconds : Z) : Z * Z
  by wf (Z.to_nat seconds) lt :=
  minutes_loop minutes seconds with decide (59 < seconds)%Z => {
    | left _ := minutes_loop (minutes + 1)%Z (seconds - 60)%Z;
    | right _ := (minutes, seconds) }.
Proof. lia. Qed.

(** [fmtDuration(seconds)], for a safe integer.  Other numbers (the
    greater ones, on which a subtraction rounds or changes nothing, and
    the fractions) are not followed: [None]. *)
Definition fmtDuration (seconds : Z) : option string :=
  if decide (safe_integer seconds) then
    let '(hours, seconds) := hours_loop 0 seconds in
    let '(minutes, seconds) := minutes_loop 0 seconds in
    Some (if decide (0 < hours)%Z then
            pretty hours +:+ "h" +:+ pretty minutes +:+ "m"
            +:+ pretty seconds +:+ "s"
          else if decide (0 < minutes)%Z then
            pretty minutes +:+ "m" +:+ pretty seconds +:+ "s"
          else pretty seconds +:+ "s")
  else None.

(** ** Sizes as text *)

Definition units : list string := ["KB"; "MB"; "GB"; "TB"; "PB"].

(** [units[idx]]: [undefined] past the end of the array. *)
Definition units_at (idx : nat) : value :=
  from_option VStr VUndefined (units !! idx).

(** The loop of [fmtBytes], [while (n >= 1024) { n /= 1024; idx++ }],
    on a finite number.  Numbers are binary fractions, and dividing one
    that is at least 1024 by 1024 is exact, so the rationals follow the
    loop exactly. *)
Equations? bytes_loop (n : Q) (idx : nat) : Q * nat
  by wf (Z.to_nat (Qfloor n)) lt :=
  bytes_loop n idx with Qlt_le_dec n 1024 => {
    | left _ := (n, idx);
    | right _ := bytes_loop (n / 1024)%Q (S idx) }.
Proof.
  destruct n as [a b]. unfold Qle in *. simpl in *.
  rewrite Z.mul_1_r.
  change (Z.pos (b * 1024)) with (Z.pos b * 1024)%Z.
  rewrite <- Z.div_div by lia.
  assert (1024 ≤ a `div` Z.pos b)%Z by (apply Z.div_le_lower_bound; lia).
  assert ((a `div` Z.pos b) `div` 1024 < a `div` Z.pos b)%Z
    by (apply Z.div_lt; lia).
  assert (0 ≤ (a `div` Z.pos b) `div` 1024)%Z by (apply Z.div_pos; lia).
  lia.
Qed.

(** [fmtBytes(n)]; [toPrecision] stands for the method of that name of
    the number, which the script takes from the language. *)
Definition fmtBytes (toPrecision : Q → nat → string) (n : Q) : string :=
  let '(n, idx) := bytes_loop n 0 in
  toPrecision n 3 +:+ " " +:+ to_string (units_at idx).

(** ** The blacklist page *)

(** A handler either returns or throws; either way it leaves a state. *)
Inductive outcome (S : Type) :=
| Returned (s : S)
| Thrown (e : exn) (s : S).
Arguments Returned {S} s.
Arguments Thrown {S} e s.

Definition after {S} (o : outcome S) : S :=
  match o with Returned s | Thrown _ s => s end.

(** The state the blacklist handlers work on: the two variables of the
    script, the HTML last assigned to each of the pattern cells
    [#bl_pat_<id>] that the page has, the text of the field
    [#bl_pat_input] (as UTF-16 code units) and the HTML last assigned to
    [#bl_pat_check_res].  The browser parses the HTML it is assigned:
    a cell shows the very text only when the text has no markup
    ([shown], below). *)
Record Blacklist := {
  bl_pat_restore : gmap Z string;
  bl_pat_valid_res : bool;
  bl_pat_cells : gmap Z string;
  bl_pat_input : list N;
  bl_pat_check_res : string }.

Definition dq : string := String (ascii_of_nat 34) "".
Definition nl : string := String (ascii_of_nat 10) "".

(** An attribute [name="val"]. *)
Definition attr (name val : string) : string :=
  name +:+ "=" +:+ dq +:+ val +:+ dq.

(** The HTML that [bl_pat_edit] puts in the cell. *)
Definition edit_form (item_id : Z) (pat : string) : string :=
  nl +:+ "<input " +:+ attr "type" "text" +:+ " "
  +:+ attr "id" ("bl_pat_input_" +:+ pretty item_id) +:+ " "
  +:+ attr "value" pat +:+ " />" +:+ nl
  +:+ "<button " +:+ attr "type" "button" +:+ " "
  +:+ attr "class" "btn btn-sm btn-success" +:+ " "
  +:+ attr "onclick" ("bl_pat_update(" +:+ pretty item_id +:+ ");")
  +:+ ">Save</button>" +:+ nl
  +:+ "<button " +:+ attr "type" "button" +:+ " "
  +:+ attr "class" "btn btn-sm btn-danger" +:+ " "
  +:+ attr "onclick" ("bl_pat_edit_cancel(" +:+ pretty item_id +:+ ")")
  +:+ ">Cancel</button>" +:+ nl.

(** [bl_pat_edit(item_id, pat)]: the pattern is saved before the cell is
    written, and writing throws when the page has no such cell. *)
Definition bl_pat_edit (item_id : Z) (pat : string) (p : Blacklist)
    : outcome Blacklist :=
  let bl_pat_cell := bl_pat_cells p !! item_id in
  let restore := <[item_id := pat]> (bl_pat_restore p) in
  match bl_pat_cell with
  | None =>
      Thrown TypeError
        {| bl_pat_restore := restore;
           bl_pat_valid_res := bl_pat_valid_res p;
           bl_pat_cells := bl_pat_cells p;
           bl_pat_input := bl_pat_input p;
           bl_pat_check_res := bl_pat_check_res p |}
  | Some _ =>
      Returned
        {| bl_pat_restore := restore;
           bl_pat_valid_res := bl_pat_valid_res p;
           bl_pat_cells := <[item_id := edit_form item_id pat]> (bl_pat_cells p);
           bl_pat_input := bl_pat_input p;
           bl_pat_check_res := bl_pat_check_res p |}
  end.

(** [bl_pat_restore[item_id]]: [undefined] when nothing is saved. *)
Definition saved_pattern (item_id : Z) (p : Blacklist) : value :=
  from_option VStr VUndefined (bl_pat_restore p !! item_id).

(** [bl_pat_edit_cancel(item_id)]: the cell is written first, the saved
    pattern deleted after. *)
Definition bl_pat_edit_cancel (item_id : Z) (p : Blacklist)
    : outcome Blacklist :=
  match bl_pat_cells p !! item_id with
  | None => Thrown TypeError p
  | Some _ =>
      Returned
        {| bl_pat_restore := delete item_id (bl_pat_restore p);
           bl_pat_valid_res := bl_pat_valid_res p;
           bl_pat_cells :=
             <[item_id := to_string (saved_pattern item_id p)]> (bl_pat_cells p);
           bl_pat_input := bl_pat_input p;
           bl_pat_check_res := bl_pat_check_res p |}
  end.

Definition bl_pat_valid_notify (p : Blacklist) : Blacklist :=
  if bl_pat_valid_res p then
    {| bl_pat_restore := bl_pat_restore p;
       bl_pat_valid_res := false;
       bl_pat_cells := bl_pat_cells p;
       bl_pat_input := bl_pat_input p;
       bl_pat_check_res := "" |}
  else p.

Definition bl_pat_input_clear (p : Blacklist) : Blacklist :=
  {| bl_pat_restore := bl_pat_restore p;
     bl_pat_valid_res := false;
     bl_pat_cells := bl_pat_cells p;
     bl_pat_input := [];
     bl_pat_check_res := "" |}.

(** The response handler of [bl_pat_check]: an icon for the verdict, and
    the flag raised in both branches. *)
Definition bl_pat_check_done (res : Response) (p : Blacklist) : Blacklist :=
  {| bl_pat_restore := bl_pat_restore p;
     bl_pat_valid_res := true;
     bl_pat_cells := bl_pat_cells p;
     bl_pat_input := bl_pat_input p;
     bl_pat_check_res :=
       if truthy (status res)
       then "<img " +:+ attr "src" "/static/icon_ok.png" +:+ " />"
       else "<img " +:+ attr "src" "/static/dialog-error.png" +:+ " />" |}.

(** What happens on the blacklist page: a call of one of the handlers
    above. *)
Inductive bl_event :=
| BlEdit (item_id : Z) (pat : string)
| BlEditCancel (item_id : Z)
| BlValidNotify
| BlInputClear
| BlCheckDone (res : Response).

Definition bl_handle (e : bl_event) (p : Blacklist) : outcome Blacklist :=
  match e with
  | BlEdit item_id pat => bl_pat_edit item_id pat p
  | BlEditCancel item_id => bl_pat_edit_cancel item_id p
  | BlValidNotify => Returned (bl_pat_valid_notify p)
  | BlInputClear => Returned (bl_pat_input_clear p)
  | BlCheckDone res => Returned (bl_pat_check_done res p)
  end.

(** Handlers run one after the other; one that throws does not stop the
    later ones. *)
Definition bl_run (es : list bl_event) (p : Blacklist) : Blacklist :=
  foldl (λ p e, after (bl_handle e p)) p es.

(** ** Handlers that write to the log *)

(** The response of the maintenance request; its fields are capitalised. *)
Record MaintResponse := { Status : value; Message : value }.

(** The two handlers of [db_maintenance].  Their calls of [console.log]
    leave the page alone and are left out. *)
Definition db_maintenance_done (now : Date) (res : MaintResponse) : M unit :=
  if negb (truthy (Status res)) then
    msg_add now (VStr "ERROR") (Some (Message res))
  else
    let msg := VStr "Database Maintenance performed without errors" in
    msg_add now (VStr "INFO") (Some msg).

Definition db_maintenance_failed (now : Date) : M unit :=
  let msg := VStr "Error performing DB maintenance" in
  msg_add now (VStr "ERROR") (Some msg).

(** The characters that [\s] matches, as code units. *)
Definition is_white_space (c : N) : bool :=
  bool_decide (c ∈ [9; 10; 11; 12; 13; 32; 160; 5760; 8232; 8233; 8239;
                    8287; 12288; 65279]%N)
  || bool_decide (8192 ≤ c ≤ 8202)%N.

(** [whitespace_pat.test(txt)] for [whitespace_pat = /^\s*$/]. *)
Definition whitespace_pat_test (txt : list N) : bool :=
  forallb is_white_space txt.

(** A request to the server. *)
Record Post := { post_url : string; post_pattern : list N }.

(** [bl_pat_check()], given the text of the pattern field: the request
    it sends, if any. *)
Definition bl_pat_check (now : Date) (txt : list N) : M (option Post) :=
  if whitespace_pat_test txt then
    let msg := VStr "Blacklist pattern to test is only whitespace" in
    msg_add now msg (Some (VStr "INFO"));;
    ret None
  else
    ret (Some {| post_url := "/ajax/blacklist/check"; post_pattern := txt |}).

(** A script's return value together with the table it leaves. *)
Definition exec_value {A} (m : M A) (t : Table) : result (A * Table) :=
  match m (open t) with
  | Ok (a, d) => Ok (a, contents d)
  | Throw e => Throw e
  end.

(** ** Vocabulary of the statements *)

(** The character of a decimal digit. *)
Definition digit (d : Z) : ascii := pretty_N_char (Z.to_N d).

Definition two_digits (n : Z) : string :=
  String (digit (n `div` 10)) (String (digit (n `mod` 10)) "").

Definition four_digits (n : Z) : string :=
  String (digit (n `div` 1000))
    (String (digit ((n `div` 100) `mod` 10))
       (String (digit ((n `div` 10) `mod` 10))
          (String (digit (n `mod` 10)) ""))).

(** A date of a four-digit year whose fields are in their ranges. *)
Definition calendar (t : DateFields) : Prop :=
  (1000 ≤ getYear t + 1900 ≤ 9999 ∧ 0 ≤ getMonth t ≤ 11
   ∧ 1 ≤ getDate t ≤ 31 ∧ 0 ≤ getHours t ≤ 23
   ∧ 0 ≤ getMinutes t ≤ 59 ∧ 0 ≤ getSeconds t ≤ 59)%Z.

Definition lex (c d : comparison) : comparison :=
  match c with Eq => d | _ => c end.

(** The order of two dates in time: years first, seconds last. *)
Definition chronological (t1 t2 : DateFields) : comparison :=
  lex (getYear t1 ?= getYear t2)%Z
  (lex (getMonth t1 ?= getMonth t2)%Z
  (lex (getDate t1 ?= getDate t2)%Z
  (lex (getHours t1 ?= getHours t2)%Z
  (lex (getMinutes t1 ?= getMinutes t2)%Z
       (getSeconds t1 ?= getSeconds t2)%Z)))).

(** The characters of a printed integer. *)
Definition numeric (c : ascii) : bool :=
  (48 <=? nat_of_ascii c) && (nat_of_ascii c <=? 57) || Ascii.eqb c "-".

Fixpoint all_numeric (s : string) : bool :=
  match s with
  | "" => true
  | String c s => numeric c && all_numeric s
  end.

Fixpoint span_numeric (s : string) : string * string :=
  match s with
  | "" => ("", "")
  | String c r =>
      if numeric c then let '(a, b) := span_numeric r in (String c a, b)
      else ("", s)
  end.

(** 1024 to the power [k]. *)
Fixpoint kib (k : nat) : Q :=
  match k with
  | O => 1
  | S k => 1024 * kib k
  end.

(** [n] takes [k] divisions by 1024 to come below 1024. *)
Definition scale_of (n : Q) (k : nat) : Prop :=
  match k with
  | O => (n < 1024)%Q
  | S _ => (kib k <= n)%Q ∧ (n < kib (S k))%Q
  end.

(** The event concerns the pattern cell of [item_id]. *)
Definition touches (item_id : Z) (e : bl_event) : Prop :=
  match e with
  | BlEdit i _ | BlEditCancel i => i = item_id
  | _ => False
  end.

(** The result area is empty whenever the flag is down. *)
Definition flag_guards_result (p : Blacklist) : Prop :=
  bl_pat_valid_res p = false → bl_pat_check_res p = "".

(** The newest [max_msg_cnt] elements of a list. *)
Definition newest {A} (l : list A) : list A :=
  drop (length l - max_msg_cnt) l.

(** Sample data. *)
Definition stamp_morning : DateFields :=
  {| getYear := 126; getMonth := 10; getDate := 2;
     getHours := 9; getMinutes := 5; getSeconds := 0 |}.

Definition stamp_evening : DateFields :=
  {| getYear := 126; getMonth := 10; getDate := 2;
     getHours := 21; getMinutes := 30; getSeconds := 59 |}.

Definition sample_precision (n : Q) (digits : nat) : string := "3.00".

Definition bl_page : Blacklist :=
  {| bl_pat_restore := ∅;
     bl_pat_valid_res := false;
     bl_pat_cells := {[ 7%Z := "spam.*"; 8%Z := "adverts" ]};
     bl_pat_input := [];
     bl_pat_check_res := "" |}.

(** * The table as the browser holds it *)

(** [msg_add] does not build the row: it splices the three texts into
    HTML, appends that to the HTML of the table and has the browser
    parse the whole again.  The module below follows this on the level
    of the HTML text.  The element [#msg_tbl] is a [table], whose rows
    the browser keeps in row groups ([tbody]), or a row group itself.
    Texts are sequences of bytes (UTF-8).  The parser follows the HTML
    of tables of rows of cells that hold text or a [plaintext] element;
    on any other HTML it stops, and the script is then [Beyond] what is
    modelled. *)
Module Page.

Inductive container := TableElement | RowGroup.

(** The content of a cell: a text (the empty text for a cell without
    content), or a [plaintext] element with its text. *)
Inductive cell :=
| Text (s : string)
| PlainText (s : string).

(** A [tr] element object, named by [ref] as in [Elem]. *)
Record node := { ref : nat; cells : list cell }.

(** The document: what [#msg_tbl] is, its row groups (for a row group,
    its rows), and the rows it had after each mutation so far. *)
Record dom := {
  kind : container;
  groups : list (list node);
  history : list (list (list cell)) }.

(** *** Serialising: reading [innerHTML] *)

(** The no-break space. *)
Definition nbsp : string :=
  String (ascii_of_nat 194) (String (ascii_of_nat 160) "").

(** The text of a text node, escaped. *)
Fixpoint escape (s : string) : string :=
  match s with
  | "" => ""
  | String c s' =>
      if Ascii.eqb c "&" then "&amp;" +:+ escape s'
      else if Ascii.eqb c "<" then "&lt;" +:+ escape s'
      else if Ascii.eqb c ">" then "&gt;" +:+ escape s'
      else if Ascii.eqb c (ascii_of_nat 194) then
        match s' with
        | String c' s'' =>
            if Ascii.eqb c' (ascii_of_nat 160) then "&nbsp;" +:+ escape s''
            else String c (escape s')
        | "" => String c ""
        end
      else String c (escape s')
  end.

(** The text of a [plaintext] element is written as it is. *)
Definition cell_html (c : cell) : string :=
  match c with
  | Text s => "<td>" +:+ escape s +:+ "</td>"
  | PlainText s => "<td><plaintext>" +:+ s +:+ "</plaintext></td>"
  end.

Definition concat_html {A} (f : A → string) (l : list A) : string :=
  foldr (λ x s, f x +:+ s) "" l.

Definition row_html (r : list cell) : string :=
  "<tr>" +:+ concat_html cell_html r +:+ "</tr>".

Definition group_html (k : container) (g : list (list cell)) : string :=
  match k with
  | TableElement => "<tbody>" +:+ concat_html row_html g +:+ "</tbody>"
  | RowGroup => concat_html row_html g
  end.

Definition serialize (k : container) (gs : list (list (list cell))) : string :=
  concat_html (group_html k) gs.

(** *** Parsing: assigning [innerHTML] *)

(** The tokenizer: in text, inside a tag, inside a character
    reference. *)
Inductive lexer := Data | Tag (name : string) | Ref (name : string).

(** Where the tree builder is: in the table, in a row group with the
    [rows] it has so far, in a row with its cells [cs], in a cell with
    its [text], in a [plaintext] element. *)
Inductive place :=
| Top
| Body (rows : list (list cell))
| Row (rows : list (list cell)) (cs : list cell)
| Cell (rows : list (list cell)) (cs : list cell) (text : string)
| Plain (rows : list (list cell)) (cs : list cell) (text : string).

(** The parser: the row groups it has closed, where it is, and the
    state of the tokenizer. *)
Record parser := {
  closed : list (list (list cell));
  at_ : place;
  lex : lexer }.

(** The parser between two tokens. *)
Definition resting (cl : list (list (list cell))) (pl : place) : parser :=
  {| closed := cl; at_ := pl; lex := Data |}.

Definition snoc (s : string) (c : ascii) : string := s +:+ String c "".

(** The characters that reach the text as they are: NUL is dropped or
    replaced and a carriage return becomes a line feed, so a text with
    one of them is not followed. *)
Definition raw_ok (c : ascii) : bool :=
  negb (Ascii.eqb c (ascii_of_nat 0)) && negb (Ascii.eqb c (ascii_of_nat 13)).

(** The character references that [escape] writes. *)
Definition char_ref (name : string) : option string :=
  if String.eqb name "amp" then Some "&"
  else if String.eqb name "lt" then Some "<"
  else if String.eqb name "gt" then Some ">"
  else if String.eqb name "nbsp" then Some nbsp
  else None.

(** A tag.  In a [table], a [tr] outside a row group opens a row group
    of its own. *)
Definition open_tag (k : container) (name : string) (p : parser) : option parser :=
  let cl := closed p in
  if String.eqb name "tr" then
    match at_ p with
    | Top => Some (resting cl (Row [] []))
    | Body rows => Some (resting cl (Row rows []))
    | _ => None
    end
  else if String.eqb name "/tr" then
    match at_ p with
    | Row rows cs => Some (resting cl (Body (rows ++ [cs])))
    | _ => None
    end
  else if String.eqb name "td" then
    match at_ p with
    | Row rows cs => Some (resting cl (Cell rows cs ""))
    | _ => None
    end
  else if String.eqb name "/td" then
    match at_ p with
    | Cell rows cs text => Some (resting cl (Row rows (cs ++ [Text text])))
    | _ => None
    end
  else if String.eqb name "tbody" then
    match at_ p with
    | Top => Some (resting cl (Body []))
    | _ => None
    end
  else if String.eqb name "/tbody" then
    match k, at_ p with
    | TableElement, Body rows => Some (resting (cl ++ [rows]) Top)
    | _, _ => None
    end
  else if String.eqb name "plaintext" then
    match at_ p with
    | Cell rows cs "" => Some (resting cl (Plain rows cs ""))
    | _ => None
    end
  else None.

(** One character of the HTML.  After [<plaintext>] everything is
    text, to the end. *)
Definition consume (k : container) (p : parser) (c : ascii) : option parser :=
  match at_ p with
  | Plain rows cs text =>
      if raw_ok c
      then Some {| closed := closed p; at_ := Plain rows cs (snoc text c);
                   lex := lex p |}
      else None
  | _ =>
      match lex p with
      | Data =>
          if Ascii.eqb c "<" then
            Some {| closed := closed p; at_ := at_ p; lex := Tag "" |}
          else
            match at_ p with
            | Cell rows cs text =>
                if Ascii.eqb c "&" then
                  Some {| closed := closed p; at_ := at_ p; lex := Ref "" |}
                else if raw_ok c then
                  Some (resting (closed p) (Cell rows cs (snoc text c)))
                else None
            | _ => None
            end
      | Tag name =>
          if Ascii.eqb c ">" then open_tag k name p
          else Some {| closed := closed p; at_ := at_ p; lex := Tag (snoc name c) |}
      | Ref name =>
          if Ascii.eqb c ";" then
            match char_ref name, at_ p with
            | Some s, Cell rows cs text =>
                Some (resting (closed p) (Cell rows cs (text +:+ s)))
            | _, _ => None
            end
          else Some {| closed := closed p; at_ := at_ p; lex := Ref (snoc name c) |}
      end
  end.

Fixpoint feed (k : container) (s : string) (p : parser) : option parser :=
  match s with
  | "" => Some p
  | String c s =>
      match consume k p c with
      | Some p' => feed k s p'
      | None => None
      end
  end.

Definition start (k : container) : parser :=
  resting [] match k with TableElement => Top | RowGroup => Body [] end.

(** The end of the HTML closes whatever is open. *)
Definition finish (p : parser) : option (list (list (list cell))) :=
  match lex p with
  | Data =>
      Some (closed p ++
            match at_ p with
            | Top => []
            | Body rows => [rows]
            | Row rows cs => [rows ++ [cs]]
            | Cell rows cs text => [rows ++ [cs ++ [Text text]]]
            | Plain rows cs text => [rows ++ [cs ++ [PlainText text]]]
            end)
  | _ => None
  end.

Definition parse (k : container) (s : string) : option (list (list (list cell))) :=
  match feed k s (start k) with
  | Some p => finish p
  | None => None
  end.

(** *** The document *)

(** Element objects get their names when the HTML is parsed: the
    position of the row among the rows of the table. *)
Fixpoint number_from (n : nat) (gs : list (list (list cell))) : list (list node) :=
  match gs with
  | [] => []
  | g :: gs => imap (λ j r, Build_node (n + j) r) g :: number_from (n + length g) gs
  end.

Definition group_rows (g : list node) : list (list cell) := cells <$> g.

Definition rows_of (gs : list (list node)) : list (list cell) :=
  cells <$> concat gs.

(** The rows of the table, in document order. *)
Definition rows (d : dom) : list (list cell) := rows_of (groups d).

Definition open (k : container) (gs : list (list (list cell))) : dom :=
  {| kind := k; groups := number_from 0 gs; history := [] |}.

Definition mutate (gs : list (list node)) (d : dom) : dom :=
  {| kind := kind d; groups := gs; history := history d ++ [rows_of gs] |}.

(** *** Scripts *)

(** A script returns, throws, or goes beyond what is modelled. *)
Inductive run (A : Type) :=
| Done (a : A)
| Raised (e : exn)
| Beyond.
Arguments Done {A} a.
Arguments Raised {A} e.
Arguments Beyond {A}.

Definition M (A : Type) : Type := dom → run (A * dom).

Definition ret {A} (a : A) : M A := λ d, Done (a, d).

Definition bind {A B} (m : M A) (f : A → M B) : M B :=
  λ d, match m d with
       | Done (a, d1) => f a d1
       | Raised e => Raised e
       | Beyond => Beyond
       end.

Definition throw {A} (e : exn) : M A := λ _, Raised e.

Definition beyond {A} : M A := λ _, Beyond.

Declare Scope page_scope.
Delimit Scope page_scope with page.
Notation "x ← y ; z" := (bind y (λ x, z))
  (at level 20, y at level 100, z at level 200) : page_scope.
Notation "x ;; z" := (bind x (λ _, z))
  (at level 100, z at level 200, right associativity) : page_scope.
Local Open Scope page_scope.

(** [$('#msg_tbl tr')] *)
Definition select_rows : M (list node) := λ d, Done (concat (groups d), d).

(** [rows[i]] as the receiver of a method call. *)
Definition receiver (rows : list node) (i : nat) : M node :=
  match rows !! i with
  | Some e => ret e
  | None => throw TypeError
  end.

(** [e.remove()]: the row leaves its row group, which stays. *)
Definition remove (e : node) : M unit :=
  λ d, Done (tt, mutate (filter (λ x, ref x ≠ ref e) <$> groups d) d).

(** Reading [msg_tbl.innerHTML]. *)
Definition get_innerHTML : M string :=
  λ d, Done (serialize (kind d) (group_rows <$> groups d), d).

(** Assigning [msg_tbl.innerHTML]. *)
Definition set_innerHTML (html : string) : M unit :=
  λ d, match parse (kind d) html with
       | Some gs => Done (tt, mutate (number_from 0 gs) d)
       | None => Beyond
       end.

(** The text a template literal substitutes for [${v}]; a number that
    is not a safe integer is not followed. *)
Definition text (v : value) : option string :=
  match v with
  | VNum n => if decide (safe_integer n) then Some (pretty n) else None
  | _ => Some (to_string v)
  end.

(** [<tr><td>${new Date()}</td><td>${level}</td><td>${msg}</td><td></td></tr>] *)
Definition template (now : Date) (level msg : value) : option string :=
  match text level, text msg with
  | Some l, Some m =>
      Some ("<tr><td>" +:+ date_text now +:+ "</td><td>" +:+ l +:+
            "</td><td>" +:+ m +:+ "</td><td></td></tr>")
  | _, _ => None
  end.

(** [$('#msg_tbl')[0].innerHTML = ''] *)
Definition msg_clear : M unit := set_innerHTML "".

Fixpoint evict (rows : list node) (i cnt : nat) : M unit :=
  if decide (max_msg_cnt ≤ cnt) then
    match cnt with
    | S cnt1 => e ← receiver rows i; remove e;; evict rows (S i) cnt1
    | O => ret tt
    end
  else ret tt.

(** [msg_add(msg, level=1)]; the last line is
    [msg_tbl.innerHTML += row]. *)
Definition msg_add (now : Date) (msg : value) (level : option value) : M unit :=
  let level := default_param level (VNum 1) in
  match template now level msg with
  | None => beyond
  | Some row =>
      rows ← select_rows;
      evict rows 0 (length rows);;
      html ← get_innerHTML;
      set_innerHTML (html +:+ row)
  end.

Definition perform (c : call) : M unit :=
  match c with
  | Add now msg level => msg_add now msg level
  | Clear => msg_clear
  end.

Fixpoint perform_all (cs : list call) : M unit :=
  match cs with
  | [] => ret tt
  | c :: cs => perform c;; perform_all cs
  end.

(** The two handlers of [db_maintenance]. *)
Definition db_maintenance_done (now : Date) (res : MaintResponse) : M unit :=
  if negb (truthy (Status res)) then
    msg_add now (VStr "ERROR") (Some (Message res))
  else
    let msg := VStr "Database Maintenance performed without errors" in
    msg_add now (VStr "INFO") (Some msg).

Definition db_maintenance_failed (now : Date) : M unit :=
  let msg := VStr "Error performing DB maintenance" in
  msg_add now (VStr "ERROR") (Some msg).

(** Running a script on a table: the rows it leaves, and the rows the
    table had after each mutation. *)
Definition exec {A} (m : M A) (k : container) (gs : list (list (list cell)))
    : run (list (list cell)) :=
  match m (open k gs) with
  | Done (_, d) => Done (rows d)
  | Raised e => Raised e
  | Beyond => Beyond
  end.

Definition trace {A} (m : M A) (k : container) (gs : list (list (list cell)))
    : run (list (list (list cell))) :=
  match m (open k gs) with
  | Done (_, d) => Done (history d)
  | Raised e => Raised e
  | Beyond => Beyond
  end.

(** The row groups a script leaves. *)
Definition exec_groups {A} (m : M A) (k : container)
    (gs : list (list (list cell))) : run (list (list (list cell))) :=
  match m (open k gs) with
  | Done (_, d) => Done (group_rows <$> groups d)
  | Raised e => Raised e
  | Beyond => Beyond
  end.

(** The number of rows a script leaves. *)
Definition row_count {A} (r : run (list A)) : option nat :=
  match r with
  | Done t => Some (length t)
  | _ => None
  end.

End Page.

(** ** Vocabulary of the statements about the page *)

Fixpoint all_chars (f : ascii → bool) (s : string) : bool :=
  match s with
  | "" => true
  | String c s => f c && all_chars f s
  end.

(** A text that the parser takes as it is when it comes escaped. *)
Definition stable (s : string) : bool := all_chars Page.raw_ok s.

(** A text without markup: no [<], no [&], and stable. *)
Definition plain_char (c : ascii) : bool :=
  Page.raw_ok c && negb (Ascii.eqb c "<") && negb (Ascii.eqb c "&").

Definition plain (s : string) : bool := all_chars plain_char s.

(** A table of rows of cells that hold stable text. *)
Definition tidy_cell (c : Page.cell) : bool :=
  match c with
  | Page.Text s => stable s
  | Page.PlainText _ => false
  end.

Definition tidy_row (r : list Page.cell) : bool := forallb tidy_cell r.

Definition tidy (gs : list (list (list Page.cell))) : bool :=
  forallb (forallb tidy_row) gs.

(** A call of [msg_add] whose three texts are without markup. *)
Definition plain_value (v : value) : bool :=
  match Page.text v with
  | Some s => plain s
  | None => false
  end.

Definition plain_call (now : Date) (msg : value) (level : option value) : bool :=
  plain (date_text now) && plain_value (default_param level (VNum 1))
  && plain_value msg.

Definition plain_args (a : Date * value * option value) : bool :=
  plain_call a.1.1 a.1.2 a.2.

Definition plain_calls (cs : list call) : bool :=
  forallb (λ c, match c with
                | Add now msg level => plain_call now msg level
                | Clear => true
                end) cs.

(** The row of four cells that a call of [msg_add] means to write. *)
Definition written_row (now : Date) (msg : value) (level : option value)
    : list Page.cell :=
  [Page.Text (date_text now);
   Page.Text (to_string (default_param level (VNum 1)));
   Page.Text (to_string msg); Page.Text ""].

Definition written_by (a : Date * value * option value) : list Page.cell :=
  written_row a.1.1 a.1.2 a.2.

(** The rows that the calls of [msg_add] among [cs] mean to write. *)
Definition written_rows (cs : list call) : list (list Page.cell) :=
  omap (λ c, match c with
             | Add now msg level => Some (written_row now msg level)
             | Clear => None
             end) cs.

(** The rows a call leaves, and the rows the table has on the way. *)
Definition log_step (t : list (list Page.cell)) (c : call) : list (list Page.cell) :=
  match c with
  | Add now msg level => drop (excess (length t)) t ++ [written_row now msg level]
  | Clear => []
  end.

Definition log_journal (t : list (list Page.cell)) (c : call)
    : list (list (list Page.cell)) :=
  match c with
  | Add _ _ _ => ((λ j, drop j t) <$> seq 1 (excess (length t))) ++ [log_step t c]
  | Clear => [[]]
  end.

Fixpoint log_journals (cs : list call) (t : list (list Page.cell))
    : list (list (list Page.cell)) :=
  match cs with
  | [] => []
  | c :: cs => log_journal t c ++ log_journals cs (log_step t c)
  end.

(** The number of row groups a call leaves, of [n]: in a table every
    row written comes in a row group of its own, and the row groups
    whose rows are evicted stay. *)
Definition group_step (k : Page.container) (n : nat) (c : call) : nat :=
  match c, k with
  | Add _ _ _, Page.TableElement => S n
  | Clear, Page.TableElement => 0
  | _, Page.RowGroup => 1
  end.

(** The rows written since the log was last cleared. *)
Definition since_clear (cs : list call) (acc : list (list Page.cell))
    : list (list Page.cell) :=
  foldl (λ acc c, match c with
                  | Add now msg level => acc ++ [written_row now msg level]
                  | Clear => []
                  end) acc cs.

(** The same row with another text in the level cell. *)
Definition relabel (f : list Page.cell → string) (r : list Page.cell)
    : list Page.cell :=
  <[1 := Page.Text (f r)]> r.

(** A row of the row model, as cells. *)
Definition cells_of (r : Row) : list Page.cell :=
  [Page.Text (timestamp r); Page.Text (level r); Page.Text (message r);
   Page.Text ""].

(** What a pattern cell shows after its [innerHTML] was assigned
    [html], for HTML that is text and character references. *)
Definition shown (html : string) : option string :=
  match Page.feed Page.RowGroup html (Page.resting [] (Page.Cell [] [] "")) with
  | Some {| Page.closed := []; Page.at_ := Page.Cell [] [] t; Page.lex := Page.Data |} =>
      Some t
  | _ => None
  end.

(** Sample data. *)

(** A message that closes its cell and row and opens a row of its
    own. *)
Definition splitting : value :=
  VStr "x</td><td></td></tr><tr><td>T</td><td>L</td><td>y".

(** A message that turns the rest of the HTML into text. *)
Definition swallowing : value := VStr "<plaintext>".

Definition five_cells : list (list Page.cell) := cells_of <$> five_rows.

(** A table of the row model whose texts are stable. *)
Definition stable_row (r : Row) : bool :=
  stable (timestamp r) && stable (level r) && stable (message r).

(** Sample calls. *)
Definition two_plain_calls : list (Date * value * option value) :=
  [(noon, VStr "f", error); (noon, VUndefined, None)].

Definition three_splitting : list (Date * value * option value) :=
  [(noon, splitting, None); (noon, splitting, None); (noon, splitting, None)].

Definition seven_cells : list (list Page.cell) := five_cells ++ take 2 five_cells.

(** * Proofs *)

(** ** Elements and their positions *)

Section parse_facts.
Implicit Types (t : Table) (i : nat).

Lemma row_parse t : row <$> parse t = t.
Proof.
  unfold parse. rewrite fmap_imap.
  rewrite (imap_ext _ (const id)) by done.
  by rewrite imap_const, list_fmap_id.
Qed.

Lemma lookup_parse t i : parse t !! i = Build_Elem i <$> t !! i.
Proof. apply list_lookup_imap. Qed.

Lemma length_parse t : length (parse t) = length t.
Proof. apply length_imap. Qed.

(** Past position [i] every element has a later [ref]. *)
Lemma refs_after t i :
  Forall (λ x, ref x ≠ i) (drop (S i) (parse t)).
Proof.
  apply Forall_lookup. intros j x.
  rewrite lookup_drop, lookup_parse.
  destruct (t !! (S i + j)); simpl; [|done].
  intros [= <-]. simpl. lia.
Qed.

(** Detaching the element that was parsed at position [i], once the
    [i] elements before it are gone, leaves the elements after it. *)
Lemma detach_front t i r :
  t !! i = Some r →
  filter (λ x, ref x ≠ ref (Build_Elem i r)) (drop i (parse t))
  = drop (S i) (parse t).
Proof.
  intros Hi. simpl.
  rewrite (drop_S _ (Build_Elem i r)) by (by rewrite lookup_parse, Hi).
  rewrite filter_cons_False by (simpl; auto).
  induction (refs_after t i) as [|x l Hx _ IH]; [done|].
  by rewrite filter_cons_True, IH.
Qed.
End parse_facts.

(** ** The eviction loop *)

Lemma excess_S cnt : max_msg_cnt ≤ S cnt → excess (S cnt) = S (excess cnt).
Proof. unfold excess, max_msg_cnt. lia. Qed.

Lemma excess_small cnt : ¬ max_msg_cnt ≤ cnt → excess cnt = 0.
Proof. unfold excess, max_msg_cnt. lia. Qed.

Lemma evict_parse (t : Table) (cnt i : nat) (hist : list Table) :
  i + cnt = length t →
  evict (parse t) i cnt {| attached := drop i (parse t); history := hist |}
  = Ok (tt, {| attached := drop (i + excess cnt) (parse t);
               history := hist ++ shrinking t i (excess cnt) |}).
Proof.
  revert i hist. induction cnt as [|cnt IH]; intros i hist Hlen.
  - simpl. unfold ret, shrinking. simpl. by rewrite Nat.add_0_r, app_nil_r.
  - cbn [evict]. destruct (decide (max_msg_cnt ≤ S cnt)) as [Hge|Hlt].
    + destruct (lookup_lt_is_Some_2 t i) as [r Hr]; [lia|].
      unfold bind at 1, receiver. rewrite lookup_parse, Hr. simpl.
      unfold bind at 1, remove, mutate, ret. cbn [attached history].
      rewrite (detach_front t i r Hr), fmap_drop, row_parse.
      rewrite IH by lia. rewrite excess_S by done.
      unfold shrinking. cbn [seq fmap list_fmap].
      rewrite <- (assoc_L (++)). simpl.
      by rewrite Nat.add_succ_r.
    + rewrite excess_small by done. unfold ret, shrinking. simpl.
      by rewrite Nat.add_0_r, app_nil_r.
Qed.

(** ** One call *)

Lemma msg_add_run (now : Date) (msg : value) (level : option value)
    (t : Table) (hist : list Table) :
  msg_add now msg level {| attached := parse t; history := hist |}
  = Ok (tt, {| attached := parse (step (Add now msg level) t);
               history := hist ++ step_journal (Add now msg level) t |}).
Proof.
  unfold msg_add, select_rows.
  unfold bind at 1. cbn [attached]. rewrite length_parse.
  pose proof (evict_parse t (length t) 0 hist eq_refl) as Hloop.
  rewrite drop_0 in Hloop. unfold bind at 1. rewrite Hloop.
  unfold innerHTML_append, mutate, contents. cbn [attached history].
  rewrite fmap_drop, !row_parse. simpl.
  by rewrite <- (assoc_L (++)).
Qed.

Lemma msg_clear_run (t : Table) (hist : list Table) :
  msg_clear {| attached := parse t; history := hist |}
  = Ok (tt, {| attached := parse (step Clear t);
               history := hist ++ step_journal Clear t |}).
Proof. reflexivity. Qed.

Lemma perform_run (c : call) (t : Table) (hist : list Table) :
  perform c {| attached := parse t; history := hist |}
  = Ok (tt, {| attached := parse (step c t);
               history := hist ++ step_journal c t |}).
Proof. destruct c; [apply msg_add_run | apply msg_clear_run]. Qed.

Lemma perform_all_run (cs : list call) (t : Table) (hist : list Table) :
  perform_all cs {| attached := parse t; history := hist |}
  = Ok (tt, {| attached := parse (foldl (flip step) t cs);
               history := hist ++ journal cs t |}).
Proof.
  revert t hist. induction cs as [|c cs IH]; intros t hist; simpl.
  - unfold ret. by rewrite app_nil_r.
  - unfold bind. rewrite perform_run, IH. by rewrite <- (assoc_L (++)).
Qed.

Lemma exec_perform_all (cs : list call) (t : Table) :
  exec (perform_all cs) t = Ok (foldl (flip step) t cs).
Proof.
  unfold exec, open. rewrite perform_all_run.
  unfold contents. simpl. by rewrite row_parse.
Qed.

Lemma trace_perform_all (cs : list call) (t : Table) :
  trace (perform_all cs) t = Ok (journal cs t).
Proof. unfold trace, open. by rewrite perform_all_run. Qed.


Lemma trace_msg_add (now : Date) (msg : value) (level : option value) (t : Table) :
  trace (msg_add now msg level) t
  = Ok (shrinking t 0 (excess (length t))
        ++ [drop (excess (length t)) t ++ [row_of now msg level]]).
Proof. unfold trace, open. by rewrite msg_add_run. Qed.

Lemma to_string_one : to_string (VNum 1) = "1".
Proof. vm_compute. reflexivity. Qed.

(** * The table as the browser holds it: proofs *)

(** ** Texts *)

Lemma append_cons (c : ascii) (s t : string) :
  String c s +:+ t = String c (s +:+ t).
Proof. reflexivity. Qed.

Lemma append_nil_r (s : string) : s +:+ "" = s.
Proof. induction s as [|c s IH]; [done|]. by rewrite append_cons, IH. Qed.

Lemma append_assoc (s1 s2 s3 : string) :
  (s1 +:+ s2) +:+ s3 = s1 +:+ (s2 +:+ s3).
Proof.
  induction s1 as [|c s1 IH]; [done|]. by rewrite !append_cons, IH.
Qed.

Lemma snoc_append (t : string) (c : ascii) (s : string) :
  Page.snoc t c +:+ s = t +:+ String c s.
Proof. unfold Page.snoc. by rewrite append_assoc. Qed.

Lemma plain_stable (s : string) : plain s = true → stable s = true.
Proof.
  unfold plain, stable. induction s as [|c s IH]; [done|]. simpl.
  unfold plain_char at 1. rewrite !andb_true_iff. intros [[[-> _] _] Hs].
  auto.
Qed.

(** ** Feeding the parser *)

Lemma feed_app (k : Page.container) (s1 s2 : string) (p : Page.parser) :
  Page.feed k (s1 +:+ s2) p
  = match Page.feed k s1 p with
    | Some p1 => Page.feed k s2 p1
    | None => None
    end.
Proof.
  revert p. induction s1 as [|c s1 IH]; intros p; [done|].
  rewrite append_cons. simpl.
  destruct (Page.consume k p c); [apply IH|done].
Qed.

(** One character of text. *)
Lemma consume_text (k : Page.container) (c : ascii) (t : string) cl rows cs :
  Page.raw_ok c = true → Ascii.eqb c "<" = false → Ascii.eqb c "&" = false →
  Page.consume k (Page.resting cl (Page.Cell rows cs t)) c
  = Some (Page.resting cl (Page.Cell rows cs (Page.snoc t c))).
Proof.
  intros Hraw Hlt Hamp. unfold Page.consume. simpl. by rewrite Hlt, Hamp, Hraw.
Qed.

(** A text without markup goes into the open cell as it is. *)
Lemma feed_plain (k : Page.container) (s t : string) cl rows cs :
  plain s = true →
  Page.feed k s (Page.resting cl (Page.Cell rows cs t))
  = Some (Page.resting cl (Page.Cell rows cs (t +:+ s))).
Proof.
  revert t. induction s as [|c s IH]; intros t Hs.
  - by rewrite append_nil_r.
  - simpl in Hs. apply andb_true_iff in Hs as [Hc Hs].
    unfold plain_char in Hc. rewrite !andb_true_iff, !negb_true_iff in Hc.
    destruct Hc as [[Hraw Hlt] Hamp].
    cbn [Page.feed]. rewrite consume_text by done.
    rewrite IH by done. by rewrite snoc_append.
Qed.

(** The character references that [escape] writes. *)
Lemma feed_reference (k : Page.container) (name s t : string) cl rows cs :
  Page.char_ref name = Some s →
  (name = "amp" ∨ name = "lt" ∨ name = "gt" ∨ name = "nbsp") →
  Page.feed k ("&" +:+ name +:+ ";") (Page.resting cl (Page.Cell rows cs t))
  = Some (Page.resting cl (Page.Cell rows cs (t +:+ s))).
Proof.
  intros Hs [-> | [-> | [-> | ->]]]; injection Hs as <-; reflexivity.
Qed.

(** The escaped form of a text puts the text in the open cell. *)
Lemma feed_escape_upto (k : Page.container) (n : nat) :
  ∀ (s t : string) cl rows cs,
  String.length s ≤ n → stable s = true →
  Page.feed k (Page.escape s) (Page.resting cl (Page.Cell rows cs t))
  = Some (Page.resting cl (Page.Cell rows cs (t +:+ s))).
Proof.
  induction n as [|n IH]; intros s t cl rows cs Hlen Hs.
  - destruct s; [|simpl in Hlen; lia]. by rewrite append_nil_r.
  - destruct s as [|c s]; [by rewrite append_nil_r|].
    simpl in Hlen. unfold stable in Hs. simpl in Hs.
    apply andb_true_iff in Hs as [Hc Hs]. fold (stable s) in Hs.
    assert (Href : ∀ name r s',
      Page.char_ref name = Some r →
      (name = "amp" ∨ name = "lt" ∨ name = "gt" ∨ name = "nbsp") →
      String.length s' ≤ n → stable s' = true →
      Page.feed k (("&" +:+ name +:+ ";") +:+ Page.escape s')
        (Page.resting cl (Page.Cell rows cs t))
      = Some (Page.resting cl (Page.Cell rows cs ((t +:+ r) +:+ s')))).
    { intros name r s' Hr Hname Hl' Hs'.
      rewrite (feed_app k ("&" +:+ name +:+ ";")),
        (feed_reference k name r) by done.
      by apply IH. }
    assert (Hone : ∀ s', String.length s' ≤ n → stable s' = true →
      Ascii.eqb c "<" = false → Ascii.eqb c "&" = false →
      Page.feed k (String c (Page.escape s'))
        (Page.resting cl (Page.Cell rows cs t))
      = Some (Page.resting cl (Page.Cell rows cs (t +:+ String c s')))).
    { intros s' Hl' Hs' Hlt Hamp. cbn [Page.feed].
      rewrite consume_text by done. rewrite IH by done.
      by rewrite snoc_append. }
    cbn [Page.escape].
    destruct (Ascii.eqb_spec c "&") as [->|Hamp].
    { etrans; [exact (Href "amp" "&" s eq_refl ltac:(auto) ltac:(lia) Hs)|].
      by rewrite append_assoc. }
    destruct (Ascii.eqb_spec c "<") as [->|Hlt].
    { etrans; [exact (Href "lt" "<" s eq_refl ltac:(auto) ltac:(lia) Hs)|].
      by rewrite append_assoc. }
    destruct (Ascii.eqb_spec c ">") as [->|Hgt].
    { etrans; [exact (Href "gt" ">" s eq_refl ltac:(auto) ltac:(lia) Hs)|].
      by rewrite append_assoc. }
    apply Ascii.eqb_neq in Hamp, Hlt.
    destruct (Ascii.eqb_spec c (ascii_of_nat 194)) as [->|H194].
    + destruct s as [|c' s''].
      * cbn [Page.feed]. by rewrite consume_text.
      * destruct (Ascii.eqb_spec c' (ascii_of_nat 160)) as [->|H160].
        -- unfold stable in Hs. simpl in Hs, Hlen. fold (stable s'') in Hs.
           etrans; [exact (Href "nbsp" Page.nbsp s'' eq_refl ltac:(auto)
                             ltac:(lia) Hs)|].
           by rewrite append_assoc.
        -- apply (Hone (String c' s'')); [simpl in *; lia|done..].
    + apply Hone; [lia|done..].
Qed.

Lemma feed_escape (k : Page.container) (s t : string) cl rows cs :
  stable s = true →
  Page.feed k (Page.escape s) (Page.resting cl (Page.Cell rows cs t))
  = Some (Page.resting cl (Page.Cell rows cs (t +:+ s))).
Proof. by apply (feed_escape_upto k (String.length s)). Qed.

(** *** Tags *)

Section tags.
Context (k : Page.container) (cl : list (list (list Page.cell))).
Context (rows : list (list Page.cell)) (cs : list Page.cell) (t : string).

Lemma feed_td :
  Page.feed k "<td>" (Page.resting cl (Page.Row rows cs))
  = Some (Page.resting cl (Page.Cell rows cs "")).
Proof. reflexivity. Qed.

Lemma feed_td_end :
  Page.feed k "</td>" (Page.resting cl (Page.Cell rows cs t))
  = Some (Page.resting cl (Page.Row rows (cs ++ [Page.Text t]))).
Proof. reflexivity. Qed.

Lemma feed_tr :
  Page.feed k "<tr>" (Page.resting cl (Page.Body rows))
  = Some (Page.resting cl (Page.Row rows [])).
Proof. reflexivity. Qed.

Lemma feed_tr_end :
  Page.feed k "</tr>" (Page.resting cl (Page.Row rows cs))
  = Some (Page.resting cl (Page.Body (rows ++ [cs]))).
Proof. reflexivity. Qed.

Lemma feed_tbody :
  Page.feed k "<tbody>" (Page.resting cl Page.Top)
  = Some (Page.resting cl (Page.Body [])).
Proof. reflexivity. Qed.

Lemma feed_tbody_end :
  Page.feed Page.TableElement "</tbody>" (Page.resting cl (Page.Body rows))
  = Some (Page.resting (cl ++ [rows]) Page.Top).
Proof. reflexivity. Qed.

(** The pieces of the row of [msg_add]. *)
Lemma feed_row_start :
  Page.feed k "<tr><td>" (Page.resting cl (Page.Body rows))
  = Some (Page.resting cl (Page.Cell rows [] "")).
Proof. reflexivity. Qed.

Lemma feed_row_start_top :
  Page.feed k "<tr><td>" (Page.resting cl Page.Top)
  = Some (Page.resting cl (Page.Cell [] [] "")).
Proof. reflexivity. Qed.

Lemma feed_next_cell :
  Page.feed k "</td><td>" (Page.resting cl (Page.Cell rows cs t))
  = Some (Page.resting cl (Page.Cell rows (cs ++ [Page.Text t]) "")).
Proof. reflexivity. Qed.

Lemma feed_row_end :
  Page.feed k "</td><td></td></tr>" (Page.resting cl (Page.Cell rows cs t))
  = Some (Page.resting cl
            (Page.Body (rows ++ [(cs ++ [Page.Text t]) ++ [Page.Text ""]]))).
Proof. reflexivity. Qed.
End tags.

(** *** Cells, rows and row groups *)

Lemma feed_cell (k : Page.container) (c : Page.cell) cl rows cs :
  tidy_cell c = true →
  Page.feed k (Page.cell_html c) (Page.resting cl (Page.Row rows cs))
  = Some (Page.resting cl (Page.Row rows (cs ++ [c]))).
Proof.
  destruct c as [s|s]; [|done]. intros Hs. unfold Page.cell_html.
  rewrite (feed_app k "<td>"), feed_td.
  rewrite (feed_app k (Page.escape s)), feed_escape by done.
  apply feed_td_end.
Qed.

Lemma feed_cells (k : Page.container) (r : list Page.cell) cl rows cs (rest : string) :
  tidy_row r = true →
  Page.feed k (Page.concat_html Page.cell_html r +:+ rest)
    (Page.resting cl (Page.Row rows cs))
  = Page.feed k rest (Page.resting cl (Page.Row rows (cs ++ r))).
Proof.
  revert cs. induction r as [|c r IH]; intros cs Hr.
  - by rewrite app_nil_r.
  - simpl in Hr. apply andb_true_iff in Hr as [Hc Hr].
    cbn [Page.concat_html foldr]. fold (Page.concat_html Page.cell_html r).
    rewrite (append_assoc (Page.cell_html c)),
      (feed_app k (Page.cell_html c)), feed_cell by done.
    rewrite IH by done. by rewrite <- (assoc_L (++)).
Qed.

Lemma feed_row (k : Page.container) (r : list Page.cell) cl rows (rest : string) :
  tidy_row r = true →
  Page.feed k (Page.row_html r +:+ rest) (Page.resting cl (Page.Body rows))
  = Page.feed k rest (Page.resting cl (Page.Body (rows ++ [r]))).
Proof.
  intros Hr. unfold Page.row_html.
  rewrite (append_assoc "<tr>"), (feed_app k "<tr>"), feed_tr.
  rewrite (append_assoc (Page.concat_html Page.cell_html r)), feed_cells by done.
  by rewrite (feed_app k "</tr>"), feed_tr_end.
Qed.

Lemma feed_rows (k : Page.container) (g : list (list Page.cell)) cl rows
    (rest : string) :
  forallb tidy_row g = true →
  Page.feed k (Page.concat_html Page.row_html g +:+ rest)
    (Page.resting cl (Page.Body rows))
  = Page.feed k rest (Page.resting cl (Page.Body (rows ++ g))).
Proof.
  revert rows. induction g as [|r g IH]; intros rows Hg.
  - by rewrite app_nil_r.
  - simpl in Hg. apply andb_true_iff in Hg as [Hr Hg].
    cbn [Page.concat_html foldr]. fold (Page.concat_html Page.row_html g).
    rewrite (append_assoc (Page.row_html r)), feed_row by done.
    rewrite IH by done. by rewrite <- (assoc_L (++)).
Qed.

(** In a [table] every row group comes back as it was. *)
Lemma feed_groups (gs : list (list (list Page.cell))) cl (rest : string) :
  tidy gs = true →
  Page.feed Page.TableElement (Page.serialize Page.TableElement gs +:+ rest)
    (Page.resting cl Page.Top)
  = Page.feed Page.TableElement rest (Page.resting (cl ++ gs) Page.Top).
Proof.
  revert cl. induction gs as [|g gs IH]; intros cl Hgs.
  - by rewrite app_nil_r.
  - unfold tidy in Hgs. simpl in Hgs. apply andb_true_iff in Hgs as [Hg Hgs].
    unfold Page.serialize. cbn [Page.concat_html foldr].
    fold (Page.serialize Page.TableElement gs).
    unfold Page.group_html.
    rewrite (append_assoc "<tbody>"), (append_assoc "<tbody>"),
      (feed_app _ "<tbody>"), feed_tbody.
    rewrite (append_assoc (Page.concat_html Page.row_html g)),
      (append_assoc (Page.concat_html Page.row_html g)), feed_rows by done.
    rewrite (append_assoc "</tbody>"), (feed_app _ "</tbody>"), feed_tbody_end.
    rewrite IH by done. by rewrite <- (assoc_L (++)).
Qed.

(** In a row group the rows come back, one after the other. *)
Lemma feed_groups_flat (gs : list (list (list Page.cell))) cl rows (rest : string) :
  tidy gs = true →
  Page.feed Page.RowGroup (Page.serialize Page.RowGroup gs +:+ rest)
    (Page.resting cl (Page.Body rows))
  = Page.feed Page.RowGroup rest (Page.resting cl (Page.Body (rows ++ concat gs))).
Proof.
  revert rows. induction gs as [|g gs IH]; intros rows Hgs.
  - by rewrite app_nil_r.
  - unfold tidy in Hgs. simpl in Hgs. apply andb_true_iff in Hgs as [Hg Hgs].
    unfold Page.serialize. cbn [Page.concat_html foldr].
    fold (Page.serialize Page.RowGroup gs).
    unfold Page.group_html.
    rewrite (append_assoc (Page.concat_html Page.row_html g)), feed_rows by done.
    rewrite IH by done. by rewrite <- (assoc_L (++)).
Qed.

(** *** The row of [msg_add] *)

(** From the first cell on, three texts without markup make the row. *)
Lemma feed_template (k : Page.container) (d l m : string) cl rows :
  plain d = true → plain l = true → plain m = true →
  Page.feed k (d +:+ "</td><td>" +:+ l +:+ "</td><td>" +:+ m
               +:+ "</td><td></td></tr>")
    (Page.resting cl (Page.Cell rows [] ""))
  = Some (Page.resting cl
            (Page.Body (rows ++ [[Page.Text d; Page.Text l; Page.Text m;
                                  Page.Text ""]]))).
Proof.
  intros Hd Hl Hm.
  rewrite (feed_app k d), feed_plain by done.
  rewrite (feed_app k "</td><td>"), feed_next_cell.
  rewrite (feed_app k l), feed_plain by done.
  rewrite (feed_app k "</td><td>"), feed_next_cell.
  rewrite (feed_app k m), feed_plain by done.
  by rewrite feed_row_end.
Qed.

(** The table that [innerHTML += row] leaves: in a [table] the new row
    comes in a row group of its own. *)
Lemma parse_appended (k : Page.container) (gs : list (list (list Page.cell)))
    (d l m : string) :
  tidy gs = true → plain d = true → plain l = true → plain m = true →
  Page.parse k (Page.serialize k gs +:+ "<tr><td>" +:+ d +:+ "</td><td>" +:+ l
                +:+ "</td><td>" +:+ m +:+ "</td><td></td></tr>")
  = Some match k with
         | Page.TableElement =>
             gs ++ [[[Page.Text d; Page.Text l; Page.Text m; Page.Text ""]]]
         | Page.RowGroup =>
             [concat gs ++ [[Page.Text d; Page.Text l; Page.Text m; Page.Text ""]]]
         end.
Proof.
  intros Hgs Hd Hl Hm. unfold Page.parse, Page.start. destruct k.
  - rewrite feed_groups by done.
    rewrite (feed_app _ "<tr><td>"), feed_row_start_top.
    by rewrite feed_template.
  - rewrite feed_groups_flat by done.
    rewrite (feed_app _ "<tr><td>"), feed_row_start.
    by rewrite feed_template.
Qed.

(** What is written out of a table of text cells reads back as the
    same table. *)
Lemma parse_serialize (k : Page.container) (gs : list (list (list Page.cell))) :
  tidy gs = true →
  Page.parse k (Page.serialize k gs)
  = Some match k with
         | Page.TableElement => gs
         | Page.RowGroup => [concat gs]
         end.
Proof.
  intros Hgs. unfold Page.parse, Page.start.
  rewrite <- (append_nil_r (Page.serialize k gs)). destruct k.
  - rewrite feed_groups by done.
    change (Some (gs ++ []) = Some gs). by rewrite app_nil_r.
  - by rewrite feed_groups_flat.
Qed.

(** ** Row elements of the page and their positions *)

Lemma group_rows_number (n : nat) (gs : list (list (list Page.cell))) :
  Page.group_rows <$> Page.number_from n gs = gs.
Proof.
  revert n. induction gs as [|g gs IH]; intros n; [done|].
  cbn [Page.number_from fmap list_fmap]. fold (@fmap list _). f_equal; [|apply IH].
  unfold Page.group_rows. rewrite fmap_imap.
  rewrite (imap_ext _ (const id)) by done.
  by rewrite imap_const, list_fmap_id.
Qed.

Lemma concat_number (n : nat) (gs : list (list (list Page.cell))) :
  concat (Page.number_from n gs)
  = imap (λ j r, Page.Build_node (n + j) r) (concat gs).
Proof.
  revert n. induction gs as [|g gs IH]; intros n; [done|].
  cbn [Page.number_from concat]. rewrite IH, imap_app. f_equal.
  apply imap_ext. intros j r _. simpl. f_equal. lia.
Qed.

Lemma rows_of_number (n : nat) (gs : list (list (list Page.cell))) :
  Page.rows_of (Page.number_from n gs) = concat gs.
Proof.
  unfold Page.rows_of. rewrite concat_number, fmap_imap.
  rewrite (imap_ext _ (const id)) by done.
  by rewrite imap_const, list_fmap_id.
Qed.

Lemma concat_filter {A} (P : A → Prop) `{!∀ x, Decision (P x)}
    (G : list (list A)) :
  concat (filter P <$> G) = filter P (concat G).
Proof.
  induction G as [|g G IH]; [done|].
  rewrite fmap_cons. cbn [concat]. by rewrite filter_app, IH.
Qed.

Section numbered.
Context (t : list (list Page.cell)).

Lemma lookup_numbered i :
  imap (λ j r, Page.Build_node (0 + j) r) t !! i = Page.Build_node i <$> t !! i.
Proof. apply list_lookup_imap. Qed.

Lemma cells_numbered :
  Page.cells <$> imap (λ j r, Page.Build_node (0 + j) r) t = t.
Proof.
  rewrite fmap_imap.
  rewrite (imap_ext _ (const id)) by done.
  by rewrite imap_const, list_fmap_id.
Qed.

Lemma detach_numbered i r :
  t !! i = Some r →
  filter (λ x, Page.ref x ≠ Page.ref (Page.Build_node i r))
    (drop i (imap (λ j r, Page.Build_node (0 + j) r) t))
  = drop (S i) (imap (λ j r, Page.Build_node (0 + j) r) t).
Proof.
  intros Hi. cbn [Page.ref].
  rewrite (drop_S _ (Page.Build_node i r)) by (by rewrite lookup_numbered, Hi).
  rewrite filter_cons_False by (simpl; auto).
  assert (Forall (λ x, Page.ref x ≠ i)
            (drop (S i) (imap (λ j r, Page.Build_node (0 + j) r) t))) as Hrefs.
  { apply Forall_lookup. intros j x.
    rewrite lookup_drop, lookup_numbered.
    destruct (t !! (S i + j)); simpl; [|done].
    intros [= <-]. simpl. lia. }
  induction Hrefs as [|x l Hx _ IH]; [done|].
  by rewrite filter_cons_True, IH.
Qed.
End numbered.

Lemma concat_group_rows (G : list (list Page.node)) :
  concat (Page.group_rows <$> G) = Page.cells <$> concat G.
Proof.
  induction G as [|g G IH]; [done|].
  rewrite fmap_cons. cbn [concat]. by rewrite fmap_app, IH.
Qed.

Lemma tidy_filter (P : Page.node → Prop) `{!∀ x, Decision (P x)}
    (G : list (list Page.node)) :
  tidy (Page.group_rows <$> G) = true →
  tidy (Page.group_rows <$> (filter P <$> G)) = true.
Proof.
  unfold tidy. induction G as [|g G IH]; [done|]. simpl.
  rewrite !andb_true_iff. intros [Hg HG]. split; [|by apply IH].
  clear IH HG. unfold Page.group_rows in *.
  induction g as [|x g IH]; [done|]. simpl in Hg.
  apply andb_true_iff in Hg as [Hx Hg].
  destruct (decide (P x)).
  - rewrite filter_cons_True by done. simpl. rewrite Hx. by apply IH.
  - rewrite filter_cons_False by done. by apply IH.
Qed.

(** ** The eviction loop on the page *)

Lemma page_evict_run (k : Page.container) (t : list (list Page.cell))
    (cnt i : nat) (G : list (list Page.node)) h :
  i + cnt = length t →
  concat G = drop i (imap (λ j r, Page.Build_node (0 + j) r) t) →
  tidy (Page.group_rows <$> G) = true →
  ∃ G',
    Page.evict (imap (λ j r, Page.Build_node (0 + j) r) t) i cnt
      {| Page.kind := k; Page.groups := G; Page.history := h |}
    = Page.Done (tt, {| Page.kind := k; Page.groups := G';
                        Page.history :=
                          h ++ ((λ j, drop j t) <$> seq (S i) (excess cnt)) |})
    ∧ concat G' = drop (i + excess cnt) (imap (λ j r, Page.Build_node (0 + j) r) t)
    ∧ tidy (Page.group_rows <$> G') = true
    ∧ length G' = length G.
Proof.
  revert i G h. induction cnt as [|cnt IH]; intros i G h Hlen HG Htidy.
  - exists G. simpl. unfold Page.ret. simpl.
    by rewrite Nat.add_0_r, app_nil_r.
  - cbn [Page.evict]. destruct (decide (max_msg_cnt ≤ S cnt)) as [Hge|Hlt].
    + destruct (lookup_lt_is_Some_2 t i) as [r Hr]; [lia|].
      unfold Page.bind at 1, Page.receiver.
      rewrite lookup_numbered, Hr. simpl.
      unfold Page.bind at 1, Page.remove, Page.mutate, Page.ret.
      cbn [Page.kind Page.groups Page.history].
      destruct (IH (S i)
                  (filter (λ x, Page.ref x ≠ Page.ref (Page.Build_node i r)) <$> G)
                  (h ++ [Page.rows_of
                           (filter (λ x, Page.ref x
                                         ≠ Page.ref (Page.Build_node i r)) <$> G)]))
        as (G' & Hrun & HG' & Htidy' & Hgroups).
      * lia.
      * by rewrite concat_filter, HG, detach_numbered.
      * by apply tidy_filter.
      * exists G'. split; [|split; [|split; [done|]]].
        -- etrans; [exact Hrun|]. do 3 f_equal.
           unfold Page.rows_of.
           rewrite concat_filter, HG, detach_numbered by done.
           rewrite fmap_drop, cells_numbered.
           rewrite excess_S by done. cbn [seq fmap list_fmap].
           by rewrite <- (assoc_L (++)).
        -- rewrite HG', excess_S by done. f_equal. lia.
        -- by rewrite Hgroups, length_fmap.
    + exists G. rewrite excess_small by done. unfold Page.ret. simpl.
      by rewrite Nat.add_0_r, app_nil_r.
Qed.

(** The loop never reaches past the rows it selected. *)
Lemma page_evict_returns (rows : list Page.node) (cnt i : nat) (d : Page.dom) :
  i + cnt ≤ length rows →
  ∃ d', Page.evict rows i cnt d = Page.Done (tt, d').
Proof.
  revert i d. induction cnt as [|cnt IH]; intros i d Hlen.
  - by exists d.
  - cbn [Page.evict]. destruct (decide (max_msg_cnt ≤ S cnt)); [|by exists d].
    destruct (lookup_lt_is_Some_2 rows i) as [e He]; [lia|].
    unfold Page.bind at 1, Page.receiver. rewrite He. simpl.
    unfold Page.bind at 1, Page.remove. apply IH. lia.
Qed.

(** ** One call on the page *)

Lemma text_plain (v : value) :
  plain_value v = true → Page.text v = Some (to_string v) ∧ plain (to_string v) = true.
Proof.
  unfold plain_value. destruct v as [| |b|n|s]; simpl; try done.
  destruct (decide (safe_integer n)); [done|discriminate].
Qed.

Lemma page_msg_add_run (k : Page.container) (gs : list (list (list Page.cell))) h
    (now : Date) (msg : value) (level : option value) :
  tidy gs = true → plain_call now msg level = true →
  ∃ gs',
    tidy gs' = true
    ∧ concat gs' = log_step (concat gs) (Add now msg level)
    ∧ length gs' = group_step k (length gs) (Add now msg level)
    ∧ Page.msg_add now msg level
        {| Page.kind := k; Page.groups := Page.number_from 0 gs;
           Page.history := h |}
      = Page.Done (tt, {| Page.kind := k; Page.groups := Page.number_from 0 gs';
                          Page.history :=
                            h ++ log_journal (concat gs) (Add now msg level) |}).
Proof.
  intros Hgs Hcall. unfold plain_call in Hcall.
  apply andb_true_iff in Hcall as [Hcall Hmsg].
  apply andb_true_iff in Hcall as [Hnow Hlevel].
  destruct (text_plain _ Hlevel) as [Hl Hlp].
  destruct (text_plain _ Hmsg) as [Hm Hmp].
  unfold Page.msg_add, Page.template. rewrite Hl, Hm.
  unfold Page.select_rows. unfold Page.bind at 1. cbn [Page.groups].
  rewrite concat_number, length_imap.
  destruct (page_evict_run k (concat gs) (length (concat gs)) 0
              (Page.number_from 0 gs) h) as (G' & Hrun & HG' & Htidy & Hgroups).
  { done. }
  { by rewrite concat_number. }
  { by rewrite group_rows_number. }
  unfold Page.bind at 1. rewrite Hrun.
  unfold Page.bind at 1, Page.get_innerHTML, Page.set_innerHTML.
  cbn [Page.kind Page.groups].
  rewrite parse_appended by (done || by apply plain_stable).
  set (new := [Page.Text (date_text now);
               Page.Text (to_string (default_param level (VNum 1)));
               Page.Text (to_string msg); Page.Text ""]).
  set (kept := Page.group_rows <$> G') in *.
  assert (concat kept = drop (excess (length (concat gs))) (concat gs)) as Hkept.
  { subst kept. rewrite Nat.add_0_l in HG'.
    rewrite <- (cells_numbered (concat gs)) at 2.
    by rewrite <- fmap_drop, <- HG', concat_group_rows. }
  set (gs' := match k with
              | Page.TableElement => kept ++ [[new]]
              | Page.RowGroup => [concat kept ++ [new]]
              end).
  assert (concat gs' = log_step (concat gs) (Add now msg level)) as Hrows.
  { subst gs'. cbn [log_step]. fold new. destruct k.
    - rewrite concat_app, Hkept. reflexivity.
    - cbn [concat]. rewrite app_nil_r, Hkept. reflexivity. }
  exists gs'. split; [|split; [done|split]].
  - subst gs'. unfold tidy in *. destruct k.
    + rewrite forallb_app, Htidy. simpl.
      by rewrite (plain_stable _ Hnow), (plain_stable _ Hlp),
        (plain_stable _ Hmp).
    + simpl. rewrite forallb_app. simpl.
      rewrite (plain_stable _ Hnow), (plain_stable _ Hlp), (plain_stable _ Hmp).
      simpl. rewrite andb_true_r, andb_true_r.
      clear -Htidy. induction kept as [|g G IH]; [done|]. simpl in *.
      apply andb_true_iff in Htidy as [Hg HG].
      by rewrite forallb_app, Hg, IH.
  - subst gs' kept. destruct k; simpl; [|done].
    rewrite length_app, length_fmap, Hgroups. simpl.
    assert (length (Page.number_from 0 gs) = length gs) as ->; [|lia].
    by rewrite <- (length_fmap Page.group_rows), group_rows_number.
  - unfold Page.mutate. cbn [Page.kind Page.history].
    rewrite rows_of_number, Hrows. cbn [log_journal].
    by rewrite <- (assoc_L (++)).
Qed.

Lemma page_msg_clear_run (k : Page.container) (G : list (list Page.node)) h :
  ∃ gs',
    tidy gs' = true
    ∧ concat gs' = []
    ∧ length gs' = group_step k (length G) Clear
    ∧ Page.msg_clear {| Page.kind := k; Page.groups := G; Page.history := h |}
      = Page.Done (tt, {| Page.kind := k; Page.groups := Page.number_from 0 gs';
                          Page.history := h ++ [[]] |}).
Proof. destruct k; [exists []|exists [[]]]; by repeat split. Qed.

Lemma page_perform_run (k : Page.container) (gs : list (list (list Page.cell))) h
    (c : call) :
  tidy gs = true → plain_calls [c] = true →
  ∃ gs',
    tidy gs' = true
    ∧ concat gs' = log_step (concat gs) c
    ∧ length gs' = group_step k (length gs) c
    ∧ Page.perform c {| Page.kind := k; Page.groups := Page.number_from 0 gs;
                        Page.history := h |}
      = Page.Done (tt, {| Page.kind := k; Page.groups := Page.number_from 0 gs';
                          Page.history := h ++ log_journal (concat gs) c |}).
Proof.
  intros Hgs Hc. destruct c as [now msg level|].
  - apply page_msg_add_run; [done|].
    unfold plain_calls in Hc. simpl in Hc. by rewrite andb_true_r in Hc.
  - destruct (page_msg_clear_run k (Page.number_from 0 gs) h)
      as (gs' & ? & ? & Hlen & ?).
    exists gs'. by repeat split.
Qed.

Lemma page_perform_all_run (k : Page.container) (cs : list call) :
  ∀ (gs : list (list (list Page.cell))) h,
  tidy gs = true → plain_calls cs = true →
  ∃ gs',
    tidy gs' = true
    ∧ concat gs' = foldl log_step (concat gs) cs
    ∧ length gs' = foldl (group_step k) (length gs) cs
    ∧ Page.perform_all cs {| Page.kind := k; Page.groups := Page.number_from 0 gs;
                             Page.history := h |}
      = Page.Done (tt, {| Page.kind := k; Page.groups := Page.number_from 0 gs';
                          Page.history := h ++ log_journals cs (concat gs) |}).
Proof.
  induction cs as [|c cs IH]; intros gs h Hgs Hcs.
  - exists gs. simpl. unfold Page.ret. by rewrite app_nil_r.
  - unfold plain_calls in Hcs. simpl in Hcs.
    apply andb_true_iff in Hcs as [Hc Hcs].
    destruct (page_perform_run k gs h c Hgs)
      as (gs1 & Hgs1 & Hrows1 & Hlen1 & Hrun1).
    { unfold plain_calls. simpl. by rewrite Hc. }
    destruct (IH gs1 (h ++ log_journal (concat gs) c) Hgs1 Hcs)
      as (gs2 & Hgs2 & Hrows2 & Hlen2 & Hrun2).
    exists gs2. split; [done|]. split; [|split].
    + simpl. by rewrite <- Hrows1.
    + simpl. by rewrite <- Hlen1.
    + cbn [Page.perform_all]. unfold Page.bind. rewrite Hrun1, Hrun2.
      cbn [log_journals]. by rewrite Hrows1, <- (assoc_L (++)).
Qed.

Lemma page_exec_all (k : Page.container) (cs : list call)
    (gs : list (list (list Page.cell))) :
  tidy gs = true → plain_calls cs = true →
  Page.exec (Page.perform_all cs) k gs = Page.Done (foldl log_step (concat gs) cs)
  ∧ Page.trace (Page.perform_all cs) k gs = Page.Done (log_journals cs (concat gs)).
Proof.
  intros Hgs Hcs.
  destruct (page_perform_all_run k cs gs [] Hgs Hcs)
    as (gs' & _ & Hrows & _ & Hrun).
  unfold Page.exec, Page.trace, Page.open. rewrite Hrun.
  unfold Page.rows. cbn [Page.groups Page.history].
  by rewrite rows_of_number, Hrows.
Qed.

Lemma page_exec_msg_add (k : Page.container) (gs : list (list (list Page.cell)))
    (now : Date) (msg : value) (level : option value) :
  tidy gs = true → plain_call now msg level = true →
  Page.exec (Page.msg_add now msg level) k gs
  = Page.Done (drop (excess (length (concat gs))) (concat gs)
               ++ [written_row now msg level])
  ∧ Page.trace (Page.msg_add now msg level) k gs
    = Page.Done (((λ j, drop j (concat gs)) <$> seq 1 (excess (length (concat gs))))
                 ++ [drop (excess (length (concat gs))) (concat gs)
                     ++ [written_row now msg level]]).
Proof.
  intros Hgs Hcall.
  destruct (page_msg_add_run k gs [] now msg level Hgs Hcall)
    as (gs' & _ & Hrows & _ & Hrun).
  unfold Page.exec, Page.trace, Page.open. rewrite Hrun.
  unfold Page.rows. cbn [Page.groups Page.history].
  by rewrite rows_of_number, Hrows.
Qed.

Lemma page_exec_groups_all (k : Page.container) (cs : list call)
    (gs : list (list (list Page.cell))) :
  tidy gs = true → plain_calls cs = true →
  ∃ gs',
    Page.exec_groups (Page.perform_all cs) k gs = Page.Done gs'
    ∧ concat gs' = foldl log_step (concat gs) cs
    ∧ length gs' = foldl (group_step k) (length gs) cs.
Proof.
  intros Hgs Hcs.
  destruct (page_perform_all_run k cs gs [] Hgs Hcs)
    as (gs' & _ & Hrows & Hlen & Hrun).
  exists gs'. unfold Page.exec_groups, Page.open. rewrite Hrun.
  cbn [Page.groups]. by rewrite group_rows_number.
Qed.

(** No call of [msg_add] throws, whatever it is given. *)
Lemma page_msg_add_returns (now : Date) (msg : value) (level : option value)
    (d : Page.dom) :
  Page.msg_add now msg level d = Page.Beyond
  ∨ ∃ d', Page.msg_add now msg level d = Page.Done (tt, d').
Proof.
  unfold Page.msg_add. destruct (Page.template _ _ _) as [row|]; [|by left].
  destruct (page_evict_returns (concat (Page.groups d))
              (length (concat (Page.groups d))) 0 d) as [d1 Hd1]; [done|].
  unfold Page.bind, Page.select_rows. cbn beta iota. rewrite Hd1.
  unfold Page.get_innerHTML, Page.set_innerHTML. cbn beta iota.
  destruct (Page.parse _ _); [right; eexists; reflexivity|by left].
Qed.

(** ** Sizes and sequences *)

Lemma plain_calls_appends (args : list (Date * value * option value)) :
  plain_calls (appends args) = forallb plain_args args.
Proof.
  unfold plain_calls, appends. induction args as [|a args IH]; [done|].
  rewrite fmap_cons. cbn [forallb]. by rewrite IH.
Qed.

Lemma plain_calls_take (n : nat) (args : list (Date * value * option value)) :
  forallb plain_args args = true → forallb plain_args (take n args) = true.
Proof.
  revert n. induction args as [|a args IH]; intros [|n]; simpl; try done.
  rewrite !andb_true_iff. intros [Ha Hargs]. auto.
Qed.

Lemma length_log_step_add now msg level (t : list (list Page.cell)) :
  length (log_step t (Add now msg level)) = Nat.min (length t + 1) max_msg_cnt.
Proof.
  cbn [log_step]. rewrite length_app, length_drop.
  unfold excess, max_msg_cnt. cbn [length]. lia.
Qed.

Lemma length_log_step (c : call) (t : list (list Page.cell)) :
  length t ≤ max_msg_cnt → length (log_step t c) ≤ max_msg_cnt.
Proof.
  intros Ht. destruct c as [now msg level|].
  - rewrite length_log_step_add. lia.
  - simpl. lia.
Qed.

Lemma log_journal_bound (c : call) (t : list (list Page.cell)) :
  length t ≤ max_msg_cnt →
  Forall (λ s, length s ≤ max_msg_cnt) (log_journal t c).
Proof.
  intros Ht. destruct c as [now msg level|]; unfold log_journal.
  - apply Forall_app. split.
    + apply Forall_fmap, Forall_forall. intros j _. simpl.
      rewrite length_drop. lia.
    + apply Forall_singleton. by apply length_log_step.
  - apply Forall_singleton. simpl. lia.
Qed.

Lemma log_journals_bound (cs : list call) (t : list (list Page.cell)) :
  length t ≤ max_msg_cnt →
  Forall (λ s, length s ≤ max_msg_cnt) (log_journals cs t)
  ∧ length (foldl log_step t cs) ≤ max_msg_cnt.
Proof.
  revert t. induction cs as [|c cs IH]; intros t Ht; simpl.
  - by split.
  - destruct (IH (log_step t c)) as [Hj Hl]; [by apply length_log_step|].
    split; [|done]. apply Forall_app. split; [|done].
    by apply log_journal_bound.
Qed.

Lemma written_rows_appends (args : list (Date * value * option value)) :
  written_rows (appends args) = written_by <$> args.
Proof.
  induction args as [|a args IH]; [done|].
  unfold written_rows, appends in *. simpl. f_equal. exact IH.
Qed.

(** Whatever the calls, the table is what remains of the initial rows
    followed by the rows written, after some of the oldest are gone. *)
Lemma log_suffix (cs : list call) (t : list (list Page.cell)) :
  ∃ n, foldl log_step t cs = drop n (t ++ written_rows cs).
Proof.
  revert t. induction cs as [|c cs IH]; intros t.
  - exists 0. simpl. by rewrite app_nil_r.
  - destruct (IH (log_step t c)) as [n Hn]. simpl. rewrite Hn.
    destruct c as [now msg level|]; simpl.
    + exists (excess (length t) + n).
      rewrite <- drop_drop, <- (assoc_L (++)). do 2 f_equal.
      rewrite drop_app_le; [done|]. unfold excess. lia.
    + exists (length t + n). by rewrite <- drop_drop, drop_app_length.
Qed.

(** From a table within the bound, appends keep the newest
    [max_msg_cnt] rows. *)
Lemma log_newest (args : list (Date * value * option value))
    (t : list (list Page.cell)) :
  length t ≤ max_msg_cnt →
  foldl log_step t (appends args)
  = drop (length t + length args - max_msg_cnt) (t ++ (written_by <$> args)).
Proof.
  revert t. induction args as [|a args IH]; intros t Ht.
  - assert (length t + length (@nil (Date * value * option value))
            - max_msg_cnt = 0) as -> by (simpl; lia).
    simpl. by rewrite app_nil_r.
  - cbn [appends fmap list_fmap foldl]. fold (appends args).
    rewrite IH by (by apply length_log_step).
    rewrite length_log_step_add. cbn [log_step].
    fold (written_by a).
    rewrite <- (assoc_L (++)). cbn [app length].
    rewrite <- (drop_app_le t (_ :: _)) by (unfold excess; lia).
    rewrite drop_drop. f_equal. unfold excess, max_msg_cnt in *. lia.
Qed.

Lemma newest_short {A} (l : list A) : length l ≤ max_msg_cnt → newest l = l.
Proof.
  intros Hl. unfold newest.
  by replace (length l - max_msg_cnt) with 0 by lia.
Qed.

Lemma log_step_newest (c : call) (acc : list (list Page.cell)) :
  log_step (newest acc) c = newest (since_clear [c] acc).
Proof.
  destruct c as [now msg level|]; [|done]. simpl.
  unfold newest, excess, max_msg_cnt.
  rewrite !length_drop, length_app. simpl.
  destruct (decide (length acc ≤ 4)) as [Hs|Hl].
  - replace (length acc - 5) with 0 by lia.
    replace (length acc - 0 - 4) with 0 by lia.
    by replace (length acc + 1 - 5) with 0 by lia.
  - rewrite drop_drop, drop_app_le by lia. do 2 f_equal. lia.
Qed.

Lemma foldl_log_step_newest (cs : list call) (acc : list (list Page.cell)) :
  foldl log_step (newest acc) cs = newest (since_clear cs acc).
Proof.
  revert acc. induction cs as [|c cs IH]; intros acc; [done|].
  cbn [foldl]. rewrite log_step_newest. apply IH.
Qed.

(** ** Relabelled tables *)

Lemma concat_fmap_rows {A B} (f : A → B) (gs : list (list A)) :
  concat ((λ g : list A, f <$> g) <$> gs) = f <$> concat gs.
Proof.
  induction gs as [|g gs IH]; [done|].
  rewrite fmap_cons. cbn [concat]. by rewrite fmap_app, IH.
Qed.

Lemma tidy_row_relabel (f : list Page.cell → string) (r : list Page.cell) :
  (∀ r, stable (f r) = true) → tidy_row r = true →
  tidy_row (relabel f r) = true.
Proof.
  intros Hf. unfold relabel, tidy_row.
  destruct r as [|c0 [|c1 r]]; simpl; try done.
  rewrite !andb_true_iff. intros (-> & _ & ->). by rewrite Hf.
Qed.

Lemma tidy_relabel (f : list Page.cell → string) (gs : list (list (list Page.cell))) :
  (∀ r, stable (f r) = true) → tidy gs = true →
  tidy ((λ g : list (list Page.cell), relabel f <$> g) <$> gs) = true.
Proof.
  intros Hf. unfold tidy.
  induction gs as [|g gs IH]; [done|]. rewrite fmap_cons. cbn [forallb].
  rewrite !andb_true_iff. intros [Hg Hgs]. split; [|by apply IH].
  clear IH Hgs. induction g as [|r g IH]; [done|].
  rewrite fmap_cons. cbn [forallb] in *.
  apply andb_true_iff in Hg as [Hr Hg].
  by rewrite tidy_row_relabel, IH.
Qed.

(** ** Rows of the row model, as cells *)

Lemma tidy_cells_of (t : Table) :
  forallb stable_row t = true → tidy [cells_of <$> t] = true.
Proof.
  unfold tidy. simpl. rewrite andb_true_r.
  induction t as [|r t IH]; [done|]. simpl.
  rewrite !andb_true_iff. intros [Hr Ht]. split; [|by apply IH].
  unfold stable_row in Hr. rewrite !andb_true_iff in Hr.
  destruct Hr as [[-> ->] ->]. done.
Qed.

Lemma log_step_cells_of (c : call) (t : Table) :
  log_step (cells_of <$> t) c = cells_of <$> step c t.
Proof.
  destruct c as [now msg level|]; [|done]. simpl.
  by rewrite fmap_app, fmap_drop, length_fmap.
Qed.

Lemma foldl_log_step_cells_of (cs : list call) (t : Table) :
  foldl log_step (cells_of <$> t) cs = cells_of <$> foldl (flip step) t cs.
Proof.
  revert t. induction cs as [|c cs IH]; intros t; [done|].
  cbn [foldl flip]. by rewrite log_step_cells_of, IH.
Qed.

(** * The claims *)

(** C1.  Capacity invariant, for texts without markup: starting from
    the empty log, whether [#msg_tbl] is a table or a row group, after
    each of any sequence of [msg_add] calls whose date, level and
    message texts carry no [<], [&], NUL or carriage return (numbers
    being safe integers), the table holds at most [max_msg_cnt] = 5
    rows, and so does every content it passes through. *)
Theorem capacity_invariant_plain (k : Page.container)
    (args : list (Date * value * option value)) (n : nat)
    (Hplain : forallb plain_args args = true) :
  max_msg_cnt = 5 ∧
  ∃ t h,
    Page.exec (Page.perform_all (appends (take n args))) k [] = Page.Done t
    ∧ Page.trace (Page.perform_all (appends (take n args))) k [] = Page.Done h
    ∧ length t ≤ 5
    ∧ Forall (λ s, length s ≤ 5) h.
Proof.
  split; [done|].
  destruct (page_exec_all k (appends (take n args)) []) as [Hexec Htrace];
    [done|by rewrite plain_calls_appends, plain_calls_take|].
  eexists _, _. split; [exact Hexec|]. split; [exact Htrace|].
  destruct (log_journals_bound (appends (take n args)) []) as [Hj Hl].
  - simpl. unfold max_msg_cnt. lia.
  - by split.
Qed.

(** C2.  FIFO eviction, for texts without markup: on a table of exactly
    five rows of text cells, [msg_add] detaches the first row only and
    leaves the other four in their order, followed by the row written.
    Which row goes does not depend on the levels: with any other texts
    [f] in the level cells the same positions are kept. *)
Theorem fifo_eviction_plain (k : Page.container) (now : Date) (msg : value)
    (level : option value) (gs : list (list (list Page.cell)))
    (f : list Page.cell → string)
    (Hgs : tidy gs = true) (Hcall : plain_call now msg level = true)
    (Hfull : length (concat gs) = 5) (Hf : ∀ r, stable (f r) = true) :
  Page.exec (Page.msg_add now msg level) k gs
  = Page.Done (drop 1 (concat gs) ++ [written_row now msg level])
  ∧ Page.exec (Page.msg_add now msg level) k
      ((λ g : list (list Page.cell), relabel f <$> g) <$> gs)
    = Page.Done ((relabel f <$> drop 1 (concat gs))
                 ++ [written_row now msg level]).
Proof.
  split.
  - rewrite (proj1 (page_exec_msg_add k gs now msg level Hgs Hcall)).
    by rewrite Hfull.
  - rewrite (proj1 (page_exec_msg_add k _ now msg level
                      (tidy_relabel f gs Hf Hgs) Hcall)).
    by rewrite concat_fmap_rows, length_fmap, Hfull, fmap_drop.
Qed.

(** C3.  Idempotent capacity, for texts without markup: on a table of
    exactly five rows of text cells, every sequence of [msg_add] calls
    ends with exactly five rows, and no content the table passes
    through, inside a call or between calls, has more than five rows
    (the loop evicts before the new row is written). *)
Theorem idempotent_capacity_plain (k : Page.container)
    (args : list (Date * value * option value))
    (gs : list (list (list Page.cell)))
    (Hgs : tidy gs = true) (Hplain : forallb plain_args args = true)
    (Hfull : length (concat gs) = 5) :
  ∃ t' h,
    Page.exec (Page.perform_all (appends args)) k gs = Page.Done t'
    ∧ Page.trace (Page.perform_all (appends args)) k gs = Page.Done h
    ∧ length t' = 5
    ∧ Forall (λ s, length s ≤ 5 ∧ length s ≠ 6) h.
Proof.
  destruct (page_exec_all k (appends args) gs) as [Hexec Htrace];
    [done|by rewrite plain_calls_appends|].
  eexists _, _. split; [exact Hexec|]. split; [exact Htrace|].
  destruct (log_journals_bound (appends args) (concat gs)) as [Hj Hl];
    [unfold max_msg_cnt; lia|].
  split.
  - rewrite log_newest by (unfold max_msg_cnt; lia).
    rewrite length_drop, length_app, length_fmap.
    unfold max_msg_cnt. lia.
  - eapply Forall_impl; [exact Hj|]. unfold max_msg_cnt. simpl. lia.
Qed.

(** C4.  Order preservation, for texts without markup: three [msg_add]
    calls on the empty table leave their three rows in call order; a
    call on a table of text cells puts its row last, after rows that
    were there before, in their order; and after any sequence of calls
    from the empty table the rows are the newest (at most five) rows
    written, in the order of the calls. *)
Theorem order_preservation_plain (k : Page.container)
    (a b c : Date * value * option value)
    (args : list (Date * value * option value))
    (gs : list (list (list Page.cell)))
    (Ha : plain_args a = true) (Hb : plain_args b = true)
    (Hc : plain_args c = true) (Hargs : forallb plain_args args = true)
    (Hgs : tidy gs = true) :
  Page.exec (Page.perform_all (appends [a; b; c])) k []
  = Page.Done [written_by a; written_by b; written_by c]
  ∧ (∃ n, Page.exec (Page.msg_add a.1.1 a.1.2 a.2) k gs
          = Page.Done (drop n (concat gs) ++ [written_by a]))
  ∧ Page.exec (Page.perform_all (appends args)) k []
    = Page.Done (drop (length args - 5) (written_by <$> args)).
Proof.
  split; [|split].
  - rewrite (proj1 (page_exec_all k (appends [a; b; c]) [] eq_refl
                      ltac:(rewrite plain_calls_appends; simpl;
                            by rewrite Ha, Hb, Hc))).
    reflexivity.
  - eexists. apply page_exec_msg_add; done.
  - rewrite (proj1 (page_exec_all k (appends args) [] eq_refl
                      ltac:(by rewrite plain_calls_appends))).
    by rewrite log_newest by (simpl; lia).
Qed.

(** C5.  The six-append scenario: from the empty table, messages a to f
    with alternating levels leave the rows of b, c, d, e, f in that
    order; that is five rows, and none of them carries the message a. *)
Theorem six_appends (t1 t2 t3 t4 t5 t6 : Date) :
  let a := VStr "a" in let b := VStr "b" in let c := VStr "c" in
  let d := VStr "d" in let e := VStr "e" in let f := VStr "f" in
  ∃ t,
    exec (perform_all [Add t1 a info; Add t2 b error; Add t3 c info;
                       Add t4 d error; Add t5 e info; Add t6 f error]) []
    = Ok t
    ∧ t = [row_of t2 b error; row_of t3 c info; row_of t4 d error;
           row_of t5 e info; row_of t6 f error]
    ∧ message <$> t = ["b"; "c"; "d"; "e"; "f"]
    ∧ level <$> t = ["ERROR"; "INFO"; "ERROR"; "INFO"; "ERROR"]
    ∧ length t = 5
    ∧ Forall (λ r, message r ≠ "a") t.
Proof.
  intros. eexists. rewrite exec_perform_all. split; [reflexivity|].
  repeat split. repeat constructor; discriminate.
Qed.

(** C6.  Clear empties unconditionally: on every table, of any size,
    [msg_clear] returns normally and leaves no row, and the table's HTML
    is then the empty string; on the empty table it leaves the empty
    table. *)
Theorem clear_empties (t : Table) :
  ∃ t',
    exec msg_clear t = Ok t'
    ∧ t' = []
    ∧ length t' = 0
    ∧ innerHTML t' = ""
    ∧ exec msg_clear [] = Ok [].
Proof. by exists []. Qed.

(** C7.  Total operations.  No call of [msg_add] or [msg_clear]
    throws, whatever the message, the level and the table.  For texts
    without markup, a missing message ([undefined]) included, [msg_add]
    on a table of text cells returns and adds exactly one row: the rows
    kept are rows of the old table, and one row follows them, whose
    cells hold the date, the level and the message as given
    ("undefined" for a missing one); [msg_clear] returns and leaves no
    row, on every table; so does every sequence of such calls return. *)
Theorem operations_total_plain (k : Page.container) (now : Date) (msg : value)
    (lvl : option value) (gs : list (list (list Page.cell))) (cs : list call)
    (Hgs : tidy gs = true) (Hcall : plain_call now msg lvl = true)
    (Hcs : plain_calls cs = true) :
  (∃ n, Page.exec (Page.msg_add now msg lvl) k gs
        = Page.Done (drop n (concat gs)
                     ++ [[Page.Text (date_text now);
                          Page.Text (to_string (default_param lvl (VNum 1)));
                          Page.Text (to_string msg); Page.Text ""]]))
  ∧ to_string VUndefined = "undefined"
  ∧ plain_value VUndefined = true
  ∧ (∀ gs0, Page.exec Page.msg_clear k gs0 = Page.Done [])
  ∧ (∃ t', Page.exec (Page.perform_all cs) k gs = Page.Done t')
  ∧ (∀ now0 msg0 lvl0 d e, Page.msg_add now0 msg0 lvl0 d ≠ Page.Raised e)
  ∧ (∀ d e, Page.msg_clear d ≠ Page.Raised e).
Proof.
  split; [|split; [done|split; [done|split; [|split; [|split]]]]].
  - eexists. apply page_exec_msg_add; done.
  - intros gs0. by destruct k.
  - eexists. apply page_exec_all; done.
  - intros now0 msg0 lvl0 d e.
    by destruct (page_msg_add_returns now0 msg0 lvl0 d) as [->|[d' ->]].
  - intros d e. unfold Page.msg_clear, Page.set_innerHTML.
    by destruct (Page.kind d).
Qed.

(** C8.  Entry immutability, for texts without markup: after any
    sequence of [msg_add] and [msg_clear] calls on a table of text
    cells, the table is a final segment of the initial rows followed by
    the rows the calls wrote.  So each row that is still there is, cell
    for cell, the row that was there initially or the row its call
    wrote: later calls only remove rows. *)
Theorem entries_immutable_plain (k : Page.container) (cs : list call)
    (gs : list (list (list Page.cell)))
    (Hgs : tidy gs = true) (Hcs : plain_calls cs = true) :
  ∃ t' n,
    Page.exec (Page.perform_all cs) k gs = Page.Done t'
    ∧ t' = drop n (concat gs ++ written_rows cs)
    ∧ ∀ j r, t' !! j = Some r →
        (concat gs ++ written_rows cs) !! (n + j) = Some r.
Proof.
  destruct (log_suffix cs (concat gs)) as [n Hn].
  eexists _, n. split; [by apply page_exec_all|]. split; [done|].
  intros j r. by rewrite Hn, lookup_drop.
Qed.


(** C10.  Restoring the bound, for texts without markup: on a table of
    [k] rows of text cells, for any [k], [msg_add] first detaches the
    max(0, k - 4) oldest rows, one by one, then writes the new row, and
    so leaves min(k + 1, 5) rows. *)
Theorem restores_bound_plain (c : Page.container) (now : Date) (msg : value)
    (level : option value) (gs : list (list (list Page.cell)))
    (Hgs : tidy gs = true) (Hcall : plain_call now msg level = true) :
  let t := concat gs in
  let k := length t in
  let kept := drop (k - 4) t in
  Page.exec (Page.msg_add now msg level) c gs
  = Page.Done (kept ++ [written_row now msg level])
  ∧ Page.trace (Page.msg_add now msg level) c gs
    = Page.Done (((λ j, drop j t) <$> seq 1 (k - 4))
                 ++ [kept ++ [written_row now msg level]])
  ∧ length (kept ++ [written_row now msg level]) = Nat.min (k + 1) 5
  ∧ Z.of_nat (k - 4) = Z.max 0 (Z.of_nat k - 4)
  ∧ length t = length kept + (k - 4).
Proof.
  intros t k kept.
  destruct (page_exec_msg_add c gs now msg level Hgs Hcall) as [Hexec Htrace].
  split; [exact Hexec|]. split; [exact Htrace|]. split; [|split].
  - apply (length_log_step_add now msg level t).
  - lia.
  - subst kept k. rewrite length_drop. lia.
Qed.

(** ** What markup in a message does *)

(** The message [splitting] closes its cell and its row and opens
    another row: each call adds two rows, and three calls from the
    empty table leave six rows, more than [max_msg_cnt]. *)
Lemma capacity_exceeded_by_markup :
  (∃ t, Page.exec (Page.perform_all (appends three_splitting))
          Page.TableElement [] = Page.Done t
        ∧ length t = 6 ∧ ¬ length t ≤ max_msg_cnt)
  ∧ (∃ t, Page.exec (Page.perform_all (appends three_splitting))
            Page.RowGroup [] = Page.Done t
          ∧ length t = 6 ∧ ¬ length t ≤ max_msg_cnt).
Proof.
  split; eexists; (split; [by vm_compute|]);
    (split; [reflexivity|]); simpl; unfold max_msg_cnt; lia.
Qed.

(** On five rows, the first row goes and two rows come: what is left
    is not the four rows kept followed by the row written; there are
    six rows, and the last is one that no call wrote. *)
Lemma fifo_markup_adds_two_rows :
  (∃ t, Page.exec (Page.msg_add noon splitting None) Page.TableElement
          [five_cells] = Page.Done t
        ∧ t = drop 1 five_cells
              ++ [[Page.Text (date_text noon); Page.Text "1"; Page.Text "x";
                   Page.Text ""];
                  [Page.Text "T"; Page.Text "L"; Page.Text "y"; Page.Text ""]]
        ∧ t ≠ drop 1 five_cells ++ [written_row noon splitting None]
        ∧ length t = 6)
  ∧ (∃ t, Page.exec (Page.msg_add noon splitting None) Page.RowGroup
            [five_cells] = Page.Done t
          ∧ t = drop 1 five_cells
                ++ [[Page.Text (date_text noon); Page.Text "1"; Page.Text "x";
                     Page.Text ""];
                    [Page.Text "T"; Page.Text "L"; Page.Text "y"; Page.Text ""]]
          ∧ t ≠ drop 1 five_cells ++ [written_row noon splitting None]
          ∧ length t = 6).
Proof.
  split; eexists; (split; [by vm_compute|]);
    (split; [reflexivity|]); (split; [discriminate|reflexivity]).
Qed.

(** A table of five rows has six when the call returns. *)
Lemma full_log_grows_to_six :
  length (concat [five_cells]) = 5
  ∧ (∃ t, Page.exec (Page.msg_add noon splitting None) Page.TableElement
            [five_cells] = Page.Done t
          ∧ length t = 6 ∧ length t ≠ 5)
  ∧ (∃ t, Page.exec (Page.msg_add noon splitting None) Page.RowGroup
            [five_cells] = Page.Done t
          ∧ length t = 6 ∧ length t ≠ 5).
Proof.
  split; [reflexivity|].
  split; eexists; (split; [by vm_compute|]);
    (split; [reflexivity|]); simpl; lia.
Qed.

(** Three calls, four rows: between the row of the first call and the
    row of the second stands one that no call wrote. *)
Lemma order_broken_by_markup :
  (∃ t, Page.exec (Page.perform_all [Add noon splitting None;
                                     Add noon (VStr "B") None;
                                     Add noon (VStr "C") None])
          Page.TableElement [] = Page.Done t
        ∧ t = [[Page.Text (date_text noon); Page.Text "1"; Page.Text "x";
                Page.Text ""];
               [Page.Text "T"; Page.Text "L"; Page.Text "y"; Page.Text ""];
               written_row noon (VStr "B") None;
               written_row noon (VStr "C") None]
        ∧ t ≠ [written_row noon splitting None; written_row noon (VStr "B") None;
               written_row noon (VStr "C") None])
  ∧ (∃ t, Page.exec (Page.perform_all [Add noon splitting None;
                                       Add noon (VStr "B") None;
                                       Add noon (VStr "C") None])
            Page.RowGroup [] = Page.Done t
          ∧ t = [[Page.Text (date_text noon); Page.Text "1"; Page.Text "x";
                  Page.Text ""];
                 [Page.Text "T"; Page.Text "L"; Page.Text "y"; Page.Text ""];
                 written_row noon (VStr "B") None;
                 written_row noon (VStr "C") None]
          ∧ t ≠ [written_row noon splitting None;
                 written_row noon (VStr "B") None;
                 written_row noon (VStr "C") None]).
Proof.
  split; eexists; (split; [by vm_compute|]);
    (split; [reflexivity|discriminate]).
Qed.

(** A message is not rendered literally: a character reference in it
    is decoded, so that the message cell does not hold the text of the
    message; and markup in it adds a second row. *)
Lemma message_not_literal :
  (∃ c, Page.exec (Page.msg_add noon (VStr "a&amp;b") None) Page.TableElement []
        = Page.Done [[Page.Text (date_text noon); Page.Text "1"; c;
                      Page.Text ""]]
        ∧ c = Page.Text "a&b"
        ∧ c ≠ Page.Text (to_string (VStr "a&amp;b")))
  ∧ (∃ c, Page.exec (Page.msg_add noon (VStr "a&amp;b") None) Page.RowGroup []
          = Page.Done [[Page.Text (date_text noon); Page.Text "1"; c;
                        Page.Text ""]]
          ∧ c = Page.Text "a&b"
          ∧ c ≠ Page.Text (to_string (VStr "a&amp;b")))
  ∧ (∃ t, Page.exec (Page.msg_add noon splitting None) Page.TableElement []
          = Page.Done t
          ∧ length t = 2 ∧ length t ≠ 1)
  ∧ (∃ t, Page.exec (Page.msg_add noon splitting None) Page.RowGroup []
          = Page.Done t
          ∧ length t = 2 ∧ length t ≠ 1).
Proof.
  split; [|split; [|split]].
  - eexists. split; [by vm_compute|]. split; [reflexivity|discriminate].
  - eexists. split; [by vm_compute|]. split; [reflexivity|discriminate].
  - eexists. split; [by vm_compute|]. split; [reflexivity|simpl; lia].
  - eexists. split; [by vm_compute|]. split; [reflexivity|simpl; lia].
Qed.

(** The message [swallowing] opens a [plaintext] element, which takes
    the rest of the HTML as its text.  The next call writes the table
    out and parses it again, and the row of the first call comes back
    with the HTML of the second row inside its message cell: the entry
    has changed after the call that made it returned, and the second
    entry is no row. *)
Lemma entry_rewritten_by_later_append :
  (∃ r1 r2,
     Page.exec (Page.msg_add noon swallowing None) Page.TableElement []
     = Page.Done [r1]
     ∧ Page.exec (Page.perform_all [Add noon swallowing None;
                                    Add noon (VStr "b") None])
         Page.TableElement []
       = Page.Done [r2]
     ∧ r1 = [Page.Text (date_text noon); Page.Text "1";
             Page.PlainText "</td><td></td></tr>"]
     ∧ r2 = [Page.Text (date_text noon); Page.Text "1";
             Page.PlainText
               ("</td><td></td></tr></plaintext></td></tr></tbody><tr><td>"
                +:+ date_text noon
                +:+ "</td><td>1</td><td>b</td><td></td></tr>")]
     ∧ r1 ≠ r2)
  ∧ (∃ r1 r2,
       Page.exec (Page.msg_add noon swallowing None) Page.RowGroup []
       = Page.Done [r1]
       ∧ Page.exec (Page.perform_all [Add noon swallowing None;
                                      Add noon (VStr "b") None])
           Page.RowGroup []
         = Page.Done [r2]
       ∧ r1 = [Page.Text (date_text noon); Page.Text "1";
               Page.PlainText "</td><td></td></tr>"]
       ∧ r2 = [Page.Text (date_text noon); Page.Text "1";
               Page.PlainText
                 ("</td><td></td></tr></plaintext></td></tr><tr><td>"
                  +:+ date_text noon
                  +:+ "</td><td>1</td><td>b</td><td></td></tr>")]
       ∧ r1 ≠ r2).
Proof.
  split; eexists _, _; (split; [by vm_compute|]); (split; [by vm_compute|]);
    (split; [reflexivity|]); (split; [by vm_compute|discriminate]).
Qed.

(** From seven rows one call leaves six, and from none it leaves two:
    not min(k + 1, 5). *)
Lemma bound_not_restored :
  length (concat [seven_cells]) = 7
  ∧ (∃ t, Page.exec (Page.msg_add noon splitting None) Page.TableElement
            [seven_cells] = Page.Done t
          ∧ length t = 6 ∧ length t ≠ Nat.min (7 + 1) 5)
  ∧ (∃ t, Page.exec (Page.msg_add noon splitting None) Page.RowGroup
            [seven_cells] = Page.Done t
          ∧ length t = 6 ∧ length t ≠ Nat.min (7 + 1) 5)
  ∧ (∃ t, Page.exec (Page.msg_add noon splitting None) Page.TableElement []
          = Page.Done t
          ∧ length t = 2 ∧ length t ≠ Nat.min (0 + 1) 5).
Proof.
  split; [reflexivity|].
  split; [|split]; eexists; (split; [by vm_compute|]);
    (split; [reflexivity|]); simpl; lia.
Qed.

(** ** Instances *)

(** Seven rows, as another writer of the table could leave them: the
    loop detaches three, and the table has 6, 5, 4 and then 5 rows. *)
Example seven_rows_trace :
  trace (msg_add noon (VStr "h") info) (five_rows ++ take 2 five_rows)
  = Ok [drop 1 five_rows ++ take 2 five_rows;
        drop 2 five_rows ++ take 2 five_rows;
        drop 3 five_rows ++ take 2 five_rows;
        drop 3 five_rows ++ take 2 five_rows ++ [row_of noon (VStr "h") info]].
Proof. by rewrite trace_msg_add. Qed.

(** An index past the end of [rows] would make the call throw; the loop
    never asks for one. *)
Example receiver_past_end (d : Dom) :
  receiver (parse five_rows) 5 d = Throw TypeError.
Proof. reflexivity. Qed.

(** ** Instances on the page *)

Lemma two_plain_calls_plain : forallb plain_args two_plain_calls = true.
Proof. by vm_compute. Qed.

Lemma five_cells_tidy : tidy [five_cells] = true.
Proof. by vm_compute. Qed.

Lemma noon_call_plain : plain_call noon (VStr "f") error = true.
Proof. by vm_compute. Qed.

Lemma capacity_invariant_plain_witness :
  forallb plain_args two_plain_calls = true
  ∧ ∃ t h,
      Page.exec (Page.perform_all (appends (take 1 two_plain_calls)))
        Page.TableElement [] = Page.Done t
      ∧ Page.trace (Page.perform_all (appends (take 1 two_plain_calls)))
          Page.TableElement [] = Page.Done h
      ∧ length t ≤ 5
      ∧ Forall (λ s, length s ≤ 5) h.
Proof.
  split; [exact two_plain_calls_plain|].
  exact (proj2 (capacity_invariant_plain Page.TableElement two_plain_calls 1
                  two_plain_calls_plain)).
Defined.

Lemma fifo_eviction_plain_witness :
  tidy [five_cells] = true
  ∧ plain_call noon (VStr "f") error = true
  ∧ length (concat [five_cells]) = 5
  ∧ (∀ r : list Page.cell, stable ((λ _, "INFO") r) = true)
  ∧ Page.exec (Page.msg_add noon (VStr "f") error) Page.TableElement [five_cells]
    = Page.Done (drop 1 (concat [five_cells])
                 ++ [written_row noon (VStr "f") error]).
Proof.
  split; [exact five_cells_tidy|]. split; [exact noon_call_plain|].
  split; [reflexivity|]. split; [intros r; reflexivity|].
  exact (proj1 (fifo_eviction_plain Page.TableElement noon (VStr "f") error
                  [five_cells] (λ _, "INFO") five_cells_tidy noon_call_plain
                  eq_refl (λ _, eq_refl))).
Defined.

Lemma idempotent_capacity_plain_witness :
  tidy [five_cells] = true
  ∧ forallb plain_args two_plain_calls = true
  ∧ length (concat [five_cells]) = 5
  ∧ ∃ t' h,
      Page.exec (Page.perform_all (appends two_plain_calls)) Page.RowGroup
        [five_cells] = Page.Done t'
      ∧ Page.trace (Page.perform_all (appends two_plain_calls)) Page.RowGroup
          [five_cells] = Page.Done h
      ∧ length t' = 5
      ∧ Forall (λ s, length s ≤ 5 ∧ length s ≠ 6) h.
Proof.
  split; [exact five_cells_tidy|]. split; [exact two_plain_calls_plain|].
  split; [reflexivity|].
  exact (idempotent_capacity_plain Page.RowGroup two_plain_calls [five_cells]
           five_cells_tidy two_plain_calls_plain eq_refl).
Defined.

Lemma order_preservation_plain_witness :
  plain_args (noon, VStr "f", error) = true
  ∧ forallb plain_args two_plain_calls = true
  ∧ tidy [five_cells] = true
  ∧ Page.exec (Page.perform_all
                 (appends [(noon, VStr "f", error); (noon, VStr "f", error);
                           (noon, VStr "f", error)])) Page.TableElement []
    = Page.Done [written_row noon (VStr "f") error;
                 written_row noon (VStr "f") error;
                 written_row noon (VStr "f") error].
Proof.
  split; [exact noon_call_plain|]. split; [exact two_plain_calls_plain|].
  split; [exact five_cells_tidy|].
  exact (proj1 (order_preservation_plain Page.TableElement
                  (noon, VStr "f", error) (noon, VStr "f", error)
                  (noon, VStr "f", error) two_plain_calls [five_cells]
                  noon_call_plain noon_call_plain noon_call_plain
                  two_plain_calls_plain five_cells_tidy)).
Defined.

Lemma operations_total_plain_witness :
  tidy [five_cells] = true
  ∧ plain_call noon (VStr "f") error = true
  ∧ plain_calls [Clear] = true
  ∧ ∃ t', Page.exec (Page.perform_all [Clear]) Page.TableElement [five_cells]
          = Page.Done t'.
Proof.
  split; [exact five_cells_tidy|]. split; [exact noon_call_plain|].
  split; [reflexivity|].
  exact (proj1 (proj2 (proj2 (proj2 (proj2
           (operations_total_plain Page.TableElement noon (VStr "f") error
              [five_cells] [Clear] five_cells_tidy noon_call_plain eq_refl)))))).
Defined.

Lemma entries_immutable_plain_witness :
  tidy [five_cells] = true
  ∧ plain_calls [Clear] = true
  ∧ ∃ t' n,
      Page.exec (Page.perform_all [Clear]) Page.RowGroup [five_cells]
      = Page.Done t'
      ∧ t' = drop n (concat [five_cells] ++ written_rows [Clear])
      ∧ ∀ j r, t' !! j = Some r →
          (concat [five_cells] ++ written_rows [Clear]) !! (n + j) = Some r.
Proof.
  split; [exact five_cells_tidy|]. split; [reflexivity|].
  exact (entries_immutable_plain Page.RowGroup [Clear] [five_cells]
           five_cells_tidy eq_refl).
Defined.


Lemma restores_bound_plain_witness :
  tidy [five_cells] = true
  ∧ plain_call noon (VStr "f") error = true
  ∧ Page.exec (Page.msg_add noon (VStr "f") error) Page.RowGroup [five_cells]
    = Page.Done (drop (length (concat [five_cells]) - 4) (concat [five_cells])
                 ++ [written_row noon (VStr "f") error]).
Proof.
  split; [exact five_cells_tidy|]. split; [exact noon_call_plain|].
  exact (proj1 (restores_bound_plain Page.RowGroup noon (VStr "f") error
                  [five_cells] five_cells_tidy noon_call_plain)).
Defined.

(** * Properties of the other functions *)

(** ** Printed integers, digit by digit *)

Lemma pretty_Z_pos (n : Z) :
  (0 < n)%Z → pretty n = pretty_N_go (Z.to_N n) "".
Proof.
  intros Hn. destruct n as [|p|p]; try lia.
  unfold pretty, pretty_Z, pretty, pretty_positive, pretty, pretty_N.
  by rewrite decide_False.
Qed.

Lemma to_N_div10 (n : Z) :
  (0 ≤ n)%Z → (Z.to_N n `div` 10)%N = Z.to_N (n `div` 10).
Proof.
  intros. change 10%N with (Z.to_N 10). by rewrite Z2N.inj_div by lia.
Qed.

Lemma to_N_mod10 (n : Z) :
  (0 ≤ n)%Z → (Z.to_N n `mod` 10)%N = Z.to_N (n `mod` 10).
Proof.
  intros. change 10%N with (Z.to_N 10). by rewrite Z2N.inj_mod by lia.
Qed.

Lemma pretty_step (n : Z) (s : string) :
  (0 < n)%Z →
  pretty_N_go (Z.to_N n) s
  = pretty_N_go (Z.to_N (n `div` 10)) (String (digit (n `mod` 10)) s).
Proof.
  intros Hn. rewrite pretty_N_go_step by lia.
  by rewrite to_N_div10, to_N_mod10 by lia.
Qed.

Lemma pretty_last (n : Z) (s : string) :
  (0 < n < 10)%Z → pretty_N_go (Z.to_N n) s = String (digit n) s.
Proof.
  intros Hn. rewrite pretty_N_go_step by lia.
  rewrite N.div_small, N.mod_small by lia. apply pretty_N_go_0.
Qed.

Lemma pretty_one_digit (n : Z) :
  (0 ≤ n < 10)%Z → pretty n = String (digit n) "".
Proof.
  intros Hn. destruct (decide (n = 0%Z)) as [->|Hne]; [done|].
  rewrite pretty_Z_pos by lia. apply pretty_last. lia.
Qed.

Lemma pretty_two_digits (n : Z) :
  (10 ≤ n < 100)%Z → pretty n = two_digits n.
Proof.
  intros Hn. rewrite pretty_Z_pos by lia.
  rewrite pretty_step by lia. rewrite pretty_last; [done|].
  split; [apply Z.div_str_pos|apply Z.div_lt_upper_bound]; lia.
Qed.

Lemma pretty_four_digits (n : Z) :
  (1000 ≤ n < 10000)%Z → pretty n = four_digits n.
Proof.
  intros Hn. rewrite pretty_Z_pos by lia.
  assert (100 ≤ n `div` 10 < 1000)%Z
    by (split; [apply Z.div_le_lower_bound|apply Z.div_lt_upper_bound]; lia).
  assert (10 ≤ n `div` 100 < 100)%Z
    by (split; [apply Z.div_le_lower_bound|apply Z.div_lt_upper_bound]; lia).
  assert (1 ≤ n `div` 1000 < 10)%Z
    by (split; [apply Z.div_le_lower_bound|apply Z.div_lt_upper_bound]; lia).
  rewrite pretty_step by lia.
  rewrite pretty_step by lia. rewrite Z.div_div by lia.
  change (10 * 10)%Z with 100%Z.
  rewrite pretty_step by lia. rewrite Z.div_div by lia.
  change (100 * 10)%Z with 1000%Z.
  by rewrite pretty_last by lia.
Qed.

Lemma pretty_N_char_numeric (x : N) : numeric (pretty_N_char x) = true.
Proof. unfold pretty_N_char. by repeat case_match. Qed.

Lemma pretty_N_go_numeric (x : N) (s : string) :
  all_numeric s = true → all_numeric (pretty_N_go x s) = true.
Proof.
  revert s. induction (N.lt_wf_0 x) as [x _ IH]; intros s Hs.
  destruct (decide (x = 0%N)) as [->|Hx]; [by rewrite pretty_N_go_0|].
  rewrite pretty_N_go_step by lia. apply IH.
  - apply N.div_lt; lia.
  - simpl. by rewrite pretty_N_char_numeric.
Qed.

Lemma pretty_numeric (z : Z) : all_numeric (pretty z) = true.
Proof.
  destruct z as [|p|p]; [done|..];
    unfold pretty, pretty_Z, pretty, pretty_positive, pretty, pretty_N;
    rewrite decide_False by done.
  - by apply pretty_N_go_numeric.
  - simpl. by apply pretty_N_go_numeric.
Qed.

Lemma span_numeric_app (a : string) (c : ascii) (r : string) :
  all_numeric a = true → numeric c = false →
  span_numeric (a +:+ String c r) = (a, String c r).
Proof.
  intros Ha Hc. induction a as [|x a IH]; simpl in *.
  - by rewrite Hc.
  - apply andb_true_iff in Ha as [Hx Ha]. by rewrite Hx, IH.
Qed.

(** Two texts that start with a printed integer and go on with another
    character agree only if they agree part by part. *)
Lemma numeric_split (a b : string) (c d : ascii) (r r' : string) :
  all_numeric a = true → all_numeric b = true →
  numeric c = false → numeric d = false →
  a +:+ String c r = b +:+ String d r' → a = b ∧ c = d ∧ r = r'.
Proof.
  intros Ha Hb Hc Hd Heq.
  apply (f_equal span_numeric) in Heq.
  rewrite !span_numeric_app in Heq by done. by inversion Heq.
Qed.

(** ** Comparing texts of digits *)

Lemma lex_Eq (c d : comparison) : lex c d = Eq → c = Eq ∧ d = Eq.
Proof. by destruct c. Qed.

Lemma compare_shift (a b k : Z) : (a + k ?= b + k)%Z = (a ?= b)%Z.
Proof.
  rewrite (Z.add_comm a k), (Z.add_comm b k). apply Z.add_compare_mono_l.
Qed.

Lemma digit_compare (a b : Z) :
  (0 ≤ a ≤ 9)%Z → (0 ≤ b ≤ 9)%Z →
  Ascii.compare (digit a) (digit b) = (a ?= b)%Z.
Proof.
  intros Ha Hb.
  assert (Hcase : ∀ x : Z, (0 ≤ x ≤ 9)%Z →
     x ∈ [0; 1; 2; 3; 4; 5; 6; 7; 8; 9]%Z).
  { intros x Hx. rewrite !elem_of_cons. lia. }
  apply Hcase in Ha, Hb. rewrite !elem_of_cons in Ha, Hb.
  rewrite elem_of_nil in Ha, Hb.
  destruct Ha as [->|[->|[->|[->|[->|[->|[->|[->|[->|[->|[]]]]]]]]]]];
  destruct Hb as [->|[->|[->|[->|[->|[->|[->|[->|[->|[->|[]]]]]]]]]]];
  reflexivity.
Qed.

Lemma compare_tens (a b : Z) :
  (a ?= b)%Z = lex (a `div` 10 ?= b `div` 10)%Z (a `mod` 10 ?= b `mod` 10)%Z.
Proof.
  unfold lex.
  destruct (Z.compare_spec (a `div` 10) (b `div` 10));
  destruct (Z.compare_spec (a `mod` 10) (b `mod` 10));
  destruct (Z.compare_spec a b); try reflexivity;
  exfalso; Z.div_mod_to_equations; lia.
Qed.

Lemma compare_same_head (c : ascii) (s1 s2 : string) :
  String.compare (String c s1) (String c s2) = String.compare s1 s2.
Proof. simpl. unfold Ascii.compare. by rewrite N.compare_refl. Qed.

Lemma string_compare_refl (s : string) : String.compare s s = Eq.
Proof. induction s as [|c s IH]; [done|]. by rewrite compare_same_head. Qed.

Lemma compare_two_digits (a b : Z) (s1 s2 : string) :
  (0 ≤ a ≤ 99)%Z → (0 ≤ b ≤ 99)%Z →
  String.compare (two_digits a +:+ s1) (two_digits b +:+ s2)
  = lex (a ?= b)%Z (String.compare s1 s2).
Proof.
  intros Ha Hb. unfold two_digits. simpl.
  rewrite !digit_compare by (Z.div_mod_to_equations; lia).
  rewrite (compare_tens a b). unfold lex.
  by repeat (destruct (_ ?= _)%Z).
Qed.

Lemma compare_two_digits_end (a b : Z) :
  (0 ≤ a ≤ 99)%Z → (0 ≤ b ≤ 99)%Z →
  String.compare (two_digits a) (two_digits b) = (a ?= b)%Z.
Proof.
  intros Ha Hb. unfold two_digits. simpl.
  rewrite !digit_compare by (Z.div_mod_to_equations; lia).
  rewrite (compare_tens a b). unfold lex.
  by repeat (destruct (_ ?= _)%Z).
Qed.

Lemma compare_four_digits (a b : Z) (s1 s2 : string) :
  (0 ≤ a ≤ 9999)%Z → (0 ≤ b ≤ 9999)%Z →
  String.compare (four_digits a +:+ s1) (four_digits b +:+ s2)
  = lex (a ?= b)%Z (String.compare s1 s2).
Proof.
  intros Ha Hb. unfold four_digits. simpl.
  rewrite !digit_compare by (Z.div_mod_to_equations; lia).
  rewrite (compare_tens a b), (compare_tens (a `div` 10) (b `div` 10)),
    (compare_tens ((a `div` 10) `div` 10) ((b `div` 10) `div` 10)).
  rewrite !Z.div_div by lia.
  change (10 * 10)%Z with 100%Z. change (100 * 10)%Z with 1000%Z.
  unfold lex. by repeat (destruct (_ ?= _)%Z).
Qed.

(** ** Time stamps *)

Lemma fmtDateNumber_pad (n : Z) :
  (0 ≤ n ≤ 99)%Z → fmtDateNumber n = two_digits n.
Proof.
  intros Hn. unfold fmtDateNumber. case_decide.
  - rewrite pretty_one_digit by lia. unfold two_digits.
    by rewrite Z.div_small, Z.mod_small by lia.
  - by rewrite pretty_two_digits by lia.
Qed.

Lemma stamp_text (t : DateFields) :
  calendar t →
  timeStampString (StampDate t)
  = four_digits (getYear t + 1900) +:+ "-" +:+ two_digits (getMonth t + 1)
    +:+ "-" +:+ two_digits (getDate t) +:+ " " +:+ two_digits (getHours t)
    +:+ ":" +:+ two_digits (getMinutes t) +:+ ":" +:+ two_digits (getSeconds t).
Proof.
  intros (?&?&?&?&?&?). unfold timeStampString.
  rewrite pretty_four_digits by lia.
  by rewrite !fmtDateNumber_pad by lia.
Qed.

Lemma stamp_compare (t1 t2 : DateFields) :
  calendar t1 → calendar t2 →
  String.compare (timeStampString (StampDate t1))
                 (timeStampString (StampDate t2))
  = chronological t1 t2.
Proof.
  intros H1 H2. rewrite !stamp_text by done.
  destruct H1 as (?&?&?&?&?&?), H2 as (?&?&?&?&?&?).
  unfold chronological.
  rewrite compare_four_digits by lia.
  change ("-" +:+ ?s) with (String "-" s). rewrite compare_same_head.
  rewrite compare_two_digits by lia.
  change ("-" +:+ ?s) with (String "-" s). rewrite compare_same_head.
  rewrite compare_two_digits by lia.
  change (" " +:+ ?s) with (String " " s). rewrite compare_same_head.
  rewrite compare_two_digits by lia.
  change (":" +:+ ?s) with (String ":" s). rewrite compare_same_head.
  rewrite compare_two_digits by lia.
  change (":" +:+ ?s) with (String ":" s). rewrite compare_same_head.
  rewrite compare_two_digits_end by lia.
  by rewrite !compare_shift.
Qed.

(** X1.  [fmtDateNumber] pads to two characters: for [n] from 0 to 99
    the text is the tens digit followed by the units digit. *)
Theorem fmtDateNumber_two_digits (n : Z) (Hn : (0 ≤ n ≤ 99)%Z) :
  fmtDateNumber n = two_digits n ∧ String.length (fmtDateNumber n) = 2.
Proof. by rewrite fmtDateNumber_pad. Qed.

(** X2.  For a date of a four-digit year, [timeStampString] gives the
    nineteen characters YYYY-MM-DD HH:MM:SS, every field at its fixed
    place and the month counted from 1. *)
Theorem timeStampString_layout (t : DateFields) (Ht : calendar t) :
  timeStampString (StampDate t)
  = four_digits (getYear t + 1900) +:+ "-" +:+ two_digits (getMonth t + 1)
    +:+ "-" +:+ two_digits (getDate t) +:+ " " +:+ two_digits (getHours t)
    +:+ ":" +:+ two_digits (getMinutes t) +:+ ":" +:+ two_digits (getSeconds t)
  ∧ String.length (timeStampString (StampDate t)) = 19.
Proof. by rewrite stamp_text. Qed.

(** X3.  Time stamps sort as text: for two dates of four-digit years,
    comparing the texts character by character gives the order of the
    dates in time. *)
Theorem timeStampString_order (t1 t2 : DateFields)
    (H1 : calendar t1) (H2 : calendar t2) :
  String.compare (timeStampString (StampDate t1))
                 (timeStampString (StampDate t2))
  = chronological t1 t2.
Proof. by apply stamp_compare. Qed.

(** X4.  Two dates of four-digit years with the same time stamp are the
    same date, second for second. *)
Theorem timeStampString_inj (t1 t2 : DateFields)
    (H1 : calendar t1) (H2 : calendar t2)
    (Heq : timeStampString (StampDate t1) = timeStampString (StampDate t2)) :
  t1 = t2.
Proof.
  pose proof (string_compare_refl (timeStampString (StampDate t1))) as Hc.
  rewrite Heq in Hc at 2.
  rewrite stamp_compare in Hc by done.
  unfold chronological in Hc.
  repeat (apply lex_Eq in Hc as [?%Z.compare_eq Hc]).
  apply Z.compare_eq in Hc.
  destruct t1, t2; simpl in *; by subst.
Qed.

(** ** Durations *)

Lemma hours_loop_small (h s : Z) : (s < 3600)%Z → hours_loop h s = (h, s).
Proof. intros Hs. simp hours_loop. destruct (decide _); [lia|done]. Qed.

Lemma hours_loop_div (h s : Z) :
  (0 ≤ s)%Z → hours_loop h s = (h + s `div` 3600, s `mod` 3600)%Z.
Proof.
  funelim (hours_loop h s); intros Hs.
  - match goal with IH : _ → hours_loop _ _ = _ |- _ => rewrite IH by lia end.
    f_equal; Z.div_mod_to_equations; lia.
  - f_equal; Z.div_mod_to_equations; lia.
Qed.

Lemma minutes_loop_small (m s : Z) : (s < 60)%Z → minutes_loop m s = (m, s).
Proof. intros Hs. simp minutes_loop. destruct (decide _); [lia|done]. Qed.

Lemma minutes_loop_div (m s : Z) :
  (0 ≤ s)%Z → minutes_loop m s = (m + s `div` 60, s `mod` 60)%Z.
Proof.
  funelim (minutes_loop m s); intros Hs.
  - match goal with IH : _ → minutes_loop _ _ = _ |- _ => rewrite IH by lia end.
    f_equal; Z.div_mod_to_equations; lia.
  - f_equal; Z.div_mod_to_equations; lia.
Qed.

Lemma duration_text (s : Z) :
  safe_integer s →
  fmtDuration s =
    Some (if decide (3600 ≤ s)%Z then
            pretty (s `div` 3600)%Z +:+ "h"
            +:+ pretty ((s `mod` 3600) `div` 60)%Z
            +:+ "m" +:+ pretty (s `mod` 60)%Z +:+ "s"
          else if decide (60 ≤ s)%Z then
            pretty (s `div` 60)%Z +:+ "m" +:+ pretty (s `mod` 60)%Z +:+ "s"
          else pretty s +:+ "s").
Proof.
  intros Hsafe. unfold fmtDuration. rewrite decide_True by done.
  clear Hsafe.
  destruct (decide (3600 ≤ s)%Z) as [Hh|Hh].
  - rewrite hours_loop_div by lia.
    rewrite minutes_loop_div by (Z.div_mod_to_equations; lia).
    rewrite !Z.add_0_l.
    rewrite decide_True by (Z.div_mod_to_equations; lia).
    do 7 f_equal. Z.div_mod_to_equations; lia.
  - rewrite hours_loop_small by lia.
    destruct (decide (60 ≤ s)%Z) as [Hm|Hm].
    + rewrite minutes_loop_div by lia. rewrite !Z.add_0_l.
      rewrite decide_False by lia.
      by rewrite decide_True by (Z.div_mod_to_equations; lia).
    + rewrite minutes_loop_small by lia.
      by rewrite !decide_False by lia.
Qed.

(** X5.  What [fmtDuration] prints for a safe integer: from an hour
    on, hours, minutes and seconds, with zero minutes or seconds shown;
    from a minute on, minutes and seconds; below a minute (negative
    numbers included, which the loops leave alone) the number of seconds
    as it is. *)
Theorem fmtDuration_closed_form (s : Z) (Hsafe : safe_integer s) :
  fmtDuration s =
    Some (if decide (3600 ≤ s)%Z then
            pretty (s `div` 3600)%Z +:+ "h"
            +:+ pretty ((s `mod` 3600) `div` 60)%Z
            +:+ "m" +:+ pretty (s `mod` 60)%Z +:+ "s"
          else if decide (60 ≤ s)%Z then
            pretty (s `div` 60)%Z +:+ "m" +:+ pretty (s `mod` 60)%Z +:+ "s"
          else pretty s +:+ "s").
Proof. by apply duration_text. Qed.

(** X6.  The text of a duration determines it: two safe integers
    that print alike are equal. *)
Theorem fmtDuration_inj (s1 s2 : Z) (txt : string)
    (H1 : fmtDuration s1 = Some txt) (H2 : fmtDuration s2 = Some txt) :
  s1 = s2.
Proof.
  assert (safe_integer s1) as Hs1.
  { unfold fmtDuration in H1. by destruct (decide (safe_integer s1)). }
  assert (safe_integer s2) as Hs2.
  { unfold fmtDuration in H2. by destruct (decide (safe_integer s2)). }
  rewrite duration_text in H1 by done. rewrite duration_text in H2 by done.
  injection H1 as H1. injection H2 as H2.
  assert (Heq := eq_trans H1 (eq_sym H2)). clear H1 H2 Hs1 Hs2 txt.
  revert Heq.
  change ("h" +:+ ?s) with (String "h" s).
  change ("m" +:+ ?s) with (String "m" s).
  change (?a +:+ "s") with (a +:+ String "s" "").
  repeat case_decide; intros Heq;
    repeat match goal with
    | H : _ +:+ String _ _ = _ +:+ String _ _ |- _ =>
        apply numeric_split in H as (?%(inj pretty) & Hc & ?);
        [try discriminate Hc; clear Hc|by auto using pretty_numeric..]
    end; try done;
    Z.div_mod_to_equations; lia.
Qed.

(** ** Sizes *)

Lemma kib_ge_1 (k : nat) : (1 <= kib k)%Q.
Proof. induction k as [|k IH]; simpl; [lra|]. lra. Qed.

Lemma bytes_loop_stop (n : Q) (idx : nat) :
  (n < 1024)%Q → bytes_loop n idx = (n, idx).
Proof.
  intros Hn. simp bytes_loop. destruct (Qlt_le_dec n 1024); [done|].
  simpl. lra.
Qed.

Lemma bytes_loop_go (n : Q) (idx : nat) :
  (1024 <= n)%Q → bytes_loop n idx = bytes_loop (n / 1024)%Q (S idx).
Proof.
  intros Hn. rewrite bytes_loop_equation_1. destruct (Qlt_le_dec n 1024); [|done].
  simpl. lra.
Qed.

Ltac qdiv := unfold Qdiv in *; change (/ 1024)%Q with (1 # 1024)%Q in *.

Lemma scale_of_div (n : Q) (k : nat) :
  scale_of n (S k) → scale_of (n / 1024)%Q k.
Proof.
  unfold scale_of. intros [Hlo Hhi]. simpl in Hlo, Hhi.
  pose proof (kib_ge_1 k).
  destruct k as [|k]; simpl in *; qdiv; [|split]; lra.
Qed.

Lemma bytes_loop_scaled (k : nat) : ∀ (n : Q) (idx : nat),
  scale_of n k →
  ∃ m, (k = 0 → m = n) ∧ (m == n / kib k)%Q
       ∧ bytes_loop n idx = (m, idx + k).
Proof.
  induction k as [|k IH]; intros n idx Hk.
  - exists n. simpl in Hk. rewrite bytes_loop_stop by done.
    repeat split; [|by rewrite Nat.add_0_r]. simpl. field.
  - pose proof (kib_ge_1 k).
    assert (1024 <= n)%Q by (destruct Hk as [Hk _]; simpl in Hk; lra).
    destruct (IH (n / 1024)%Q (S idx) (scale_of_div n k Hk)) as (m & _ & Hm & Hl).
    exists m. rewrite bytes_loop_go by done. rewrite Hl.
    repeat split; [done| |f_equal; lia].
    rewrite Hm. simpl. field. lra.
Qed.

Lemma scale_exists (n : Q) (idx : nat) : ∃ k, scale_of n k.
Proof.
  funelim (bytes_loop n idx).
  - by exists 0.
  - match goal with IH : ∃ k, scale_of _ k |- _ => destruct IH as [k Hk] end.
    exists (S k). pose proof (kib_ge_1 k).
    destruct k as [|k]; simpl in *; [|destruct Hk]; qdiv; split; lra.
Qed.

Lemma kib_mono (j k : nat) : j ≤ k → (kib j <= kib k)%Q.
Proof.
  induction 1 as [|k _ IH]; [lra|]. pose proof (kib_ge_1 k). simpl. lra.
Qed.

Lemma scale_of_large (n : Q) (k : nat) :
  (kib 5 <= n)%Q → scale_of n k → 5 ≤ k.
Proof.
  intros Hn Hk. destruct (decide (5 ≤ k)) as [|Hlt]; [done|exfalso].
  assert (n < kib (S k))%Q as Hhi.
  { destruct k; simpl in *; [lra|]. by destruct Hk. }
  pose proof (kib_mono (S k) 5 ltac:(lia)). lra.
Qed.

Lemma units_past_end (k : nat) : 5 ≤ k → units_at k = VUndefined.
Proof.
  intros Hk. unfold units_at. by rewrite lookup_ge_None_2.
Qed.

(** X7.  [fmtBytes] divides by 1024 as many times as it takes to come
    below 1024 and names the unit after the number of divisions: KB for
    none (so a number below 1024 is printed unscaled, as KB), then MB,
    GB, TB and PB. *)
Theorem fmtBytes_scaled (toPrecision : Q → nat → string) (n : Q) (k : nat)
    (Hk : scale_of n k) :
  (∃ m, (k = 0 → m = n) ∧ (m == n / kib k)%Q
        ∧ (1 ≤ k → (1 <= m)%Q ∧ (m < 1024)%Q)
        ∧ fmtBytes toPrecision n
          = toPrecision m 3 +:+ " " +:+ to_string (units_at k))
  ∧ to_string ∘ units_at <$> [0; 1; 2; 3; 4] = ["KB"; "MB"; "GB"; "TB"; "PB"].
Proof.
  split; [|done].
  destruct (bytes_loop_scaled k n 0 Hk) as (m & H0 & Hm & Hl).
  exists m. unfold fmtBytes. rewrite Hl.
  split; [done|]. split; [done|]. split; [|done].
  intros Hk1. pose proof (kib_ge_1 k).
  destruct k as [|k]; [lia|]. destruct Hk as [Hlo Hhi].
  change (kib (S (S k))) with (1024 * kib (S k))%Q in Hhi.
  assert (1 <= n / kib (S k))%Q by (apply Qle_shift_div_l; lra).
  assert (n / kib (S k) < 1024)%Q by (apply Qlt_shift_div_r; lra).
  split; lra.
Qed.

(** X8.  The table of units ends at PB: from 1024^5 on, [fmtBytes]
    prints the word undefined where the unit should be. *)
Theorem fmtBytes_beyond_units (toPrecision : Q → nat → string) (n : Q)
    (Hn : (kib 5 <= n)%Q) :
  ∃ m, fmtBytes toPrecision n = toPrecision m 3 +:+ " undefined".
Proof.
  destruct (scale_exists n 0) as [k Hk].
  destruct (bytes_loop_scaled k n 0 Hk) as (m & _ & _ & Hl).
  exists m. unfold fmtBytes. rewrite Hl. simpl.
  by rewrite units_past_end by eauto using scale_of_large.
Qed.

(** ** The blacklist page *)

(** An event that does not concern the cell of [a] leaves the cell, and
    what is saved for it, as they are. *)
Lemma bl_handle_frame (a : Z) (e : bl_event) (p : Blacklist) :
  ¬ touches a e →
  bl_pat_cells (after (bl_handle e p)) !! a = bl_pat_cells p !! a
  ∧ bl_pat_restore (after (bl_handle e p)) !! a = bl_pat_restore p !! a.
Proof.
  intros Ha. destruct e as [i pat|i| | |res]; simpl in *.
  - unfold bl_pat_edit. destruct (bl_pat_cells p !! i); simpl;
      by rewrite ?lookup_insert_ne.
  - unfold bl_pat_edit_cancel. destruct (bl_pat_cells p !! i); simpl;
      by rewrite ?lookup_insert_ne, ?lookup_delete_ne.
  - unfold bl_pat_valid_notify. by destruct (bl_pat_valid_res p).
  - done.
  - done.
Qed.

Lemma bl_run_frame (a : Z) (es : list bl_event) (p : Blacklist) :
  Forall (λ e, ¬ touches a e) es →
  bl_pat_cells (bl_run es p) !! a = bl_pat_cells p !! a
  ∧ bl_pat_restore (bl_run es p) !! a = bl_pat_restore p !! a.
Proof.
  intros Hes. revert p. induction Hes as [|e es He _ IH]; intros p; [done|].
  unfold bl_run in *. simpl.
  destruct (IH (after (bl_handle e p))) as [-> ->].
  by apply bl_handle_frame.
Qed.

Lemma bl_run_app (es1 es2 : list bl_event) (p : Blacklist) :
  bl_run (es1 ++ es2) p = bl_run es2 (bl_run es1 p).
Proof. apply foldl_app. Qed.

(** A text without markup is shown as it is. *)
Lemma shown_plain (s : string) : plain s = true → shown s = Some s.
Proof. intros Hs. unfold shown. by rewrite feed_plain. Qed.

(** X9.  Edit, then cancel: when the page has the cell of an item,
    [bl_pat_edit] followed by [bl_pat_edit_cancel] for that item assigns
    the pattern given to [bl_pat_edit] to the cell again, which for a
    pattern without markup is the text the cell then shows, and leaves
    nothing saved for the item, whatever the handlers do for other items
    and for the check of a pattern in between. *)
Theorem bl_edit_cancel_restores (a : Z) (pat : string) (es : list bl_event)
    (p : Blacklist) (Hcell : is_Some (bl_pat_cells p !! a))
    (Hes : Forall (λ e, ¬ touches a e) es) (Hpat : plain pat = true) :
  let p' := bl_run (BlEdit a pat :: es ++ [BlEditCancel a]) p in
  bl_pat_cells p' !! a = Some pat
  ∧ shown <$> bl_pat_cells p' !! a = Some (Some pat)
  ∧ bl_pat_restore p' !! a = None.
Proof.
  destruct Hcell as [c Hc]. simpl.
  change (bl_run (BlEdit a pat :: es ++ [BlEditCancel a]) p)
    with (bl_run (es ++ [BlEditCancel a]) (after (bl_pat_edit a pat p))).
  rewrite bl_run_app.
  set (q := after (bl_pat_edit a pat p)).
  assert (bl_pat_cells q !! a = Some (edit_form a pat)
          ∧ bl_pat_restore q !! a = Some pat) as [Hq1 Hq2].
  { subst q. unfold bl_pat_edit. rewrite Hc. simpl.
    by rewrite !lookup_insert_eq. }
  destruct (bl_run_frame a es q Hes) as [Hcells Hsaved].
  rewrite Hq1 in Hcells. rewrite Hq2 in Hsaved.
  generalize dependent (bl_run es q). intros r Hcells Hsaved.
  unfold bl_run. simpl. unfold bl_pat_edit_cancel, saved_pattern.
  rewrite Hcells, Hsaved. simpl.
  rewrite lookup_insert_eq, lookup_delete_eq. simpl.
  by rewrite (shown_plain pat Hpat).
Qed.

(** X10.  Cancel with nothing saved: when the page has the cell but no
    pattern is saved for the item (no edit is under way, or it was
    cancelled already), [bl_pat_edit_cancel] writes the word undefined
    in the cell. *)
Theorem bl_cancel_nothing_saved (a : Z) (p : Blacklist)
    (Hcell : is_Some (bl_pat_cells p !! a))
    (Hnone : bl_pat_restore p !! a = None) :
  ∃ p', bl_pat_edit_cancel a p = Returned p'
        ∧ bl_pat_cells p' !! a = Some "undefined"
        ∧ bl_pat_restore p' = bl_pat_restore p.
Proof.
  destruct Hcell as [c Hc]. unfold bl_pat_edit_cancel, saved_pattern.
  rewrite Hc, Hnone. eexists. split; [done|]. simpl.
  by rewrite lookup_insert_eq, delete_id.
Qed.

(** X11.  No such cell: when the page has no cell for the item, both
    handlers throw.  [bl_pat_edit] has saved its pattern by then, and the
    pattern stays saved; [bl_pat_edit_cancel] changes nothing. *)
Theorem bl_missing_cell (a : Z) (pat : string) (p : Blacklist)
    (Hmiss : bl_pat_cells p !! a = None) :
  (∃ p', bl_pat_edit a pat p = Thrown TypeError p'
         ∧ bl_pat_restore p' !! a = Some pat
         ∧ bl_pat_cells p' = bl_pat_cells p)
  ∧ bl_pat_edit_cancel a p = Thrown TypeError p.
Proof.
  unfold bl_pat_edit, bl_pat_edit_cancel. rewrite Hmiss.
  split; [|done]. eexists. split; [done|]. simpl.
  by rewrite lookup_insert_eq.
Qed.

Lemma flag_guards_step (e : bl_event) (p : Blacklist) :
  flag_guards_result p → flag_guards_result (after (bl_handle e p)).
Proof.
  unfold flag_guards_result. intros Hp.
  destruct e as [i pat|i| | |res]; simpl.
  - unfold bl_pat_edit. by destruct (bl_pat_cells p !! i).
  - unfold bl_pat_edit_cancel. by destruct (bl_pat_cells p !! i).
  - unfold bl_pat_valid_notify.
    destruct (bl_pat_valid_res p) eqn:Hflag; simpl; auto.
  - done.
  - done.
Qed.

(** X12.  The flag [bl_pat_valid_res] tells whether the result area
    shows a verdict: if the area is empty whenever the flag is down, it
    stays so after any sequence of handlers, and so
    [bl_pat_valid_notify], which writes only when the flag is up, always
    leaves the area empty and the flag down. *)
Theorem bl_flag_guards (es : list bl_event) (p : Blacklist)
    (Hinv : flag_guards_result p) :
  flag_guards_result (bl_run es p)
  ∧ bl_pat_check_res (bl_pat_valid_notify (bl_run es p)) = ""
  ∧ bl_pat_valid_res (bl_pat_valid_notify (bl_run es p)) = false.
Proof.
  assert (flag_guards_result (bl_run es p)) as Hrun.
  { revert p Hinv. induction es as [|e es IH]; intros p Hinv; [done|].
    apply (IH (after (bl_handle e p))). by apply flag_guards_step. }
  split; [done|]. unfold flag_guards_result in Hrun.
  unfold bl_pat_valid_notify.
  destruct (bl_pat_valid_res (bl_run es p)) eqn:Hflag; simpl; [done|].
  by rewrite Hrun.
Qed.

(** ** Handlers that write to the log *)

(** X13.  What [db_maintenance] logs: its calls pass the severity where
    [msg_add] expects the message, so the row has ERROR or INFO in the
    message cell and the text in the level cell; when the server reports
    a failure without a [Message], the level cell shows the default 1.
    The date and the [Message] of the response are texts without
    markup. *)
Theorem db_maintenance_row_plain (k : Page.container) (now : Date)
    (res : MaintResponse) (gs : list (list (list Page.cell)))
    (Hgs : tidy gs = true) (Hnow : plain (date_text now) = true)
    (Hmsg : plain_value (default_param (Some (Message res)) (VNum 1)) = true) :
  Page.exec (Page.db_maintenance_done now res) k gs
  = Page.Done (drop (excess (length (concat gs))) (concat gs)
      ++ [[Page.Text (date_text now);
           Page.Text (if truthy (Status res)
                      then "Database Maintenance performed without errors"
                      else to_string (default_param (Some (Message res)) (VNum 1)));
           Page.Text (if truthy (Status res) then "INFO" else "ERROR");
           Page.Text ""]])
  ∧ Page.exec (Page.db_maintenance_done now
                 {| Status := VBool false; Message := VUndefined |}) k gs
    = Page.Done (drop (excess (length (concat gs))) (concat gs)
        ++ [[Page.Text (date_text now); Page.Text "1"; Page.Text "ERROR";
             Page.Text ""]])
  ∧ Page.exec (Page.db_maintenance_failed now) k gs
    = Page.Done (drop (excess (length (concat gs))) (concat gs)
        ++ [[Page.Text (date_text now);
             Page.Text "Error performing DB maintenance";
             Page.Text "ERROR"; Page.Text ""]]).
Proof.
  assert (∀ msg level, plain_value (default_param level (VNum 1)) = true →
          plain_value msg = true → plain_call now msg level = true) as Hcall.
  { intros msg level Hl Hm. unfold plain_call. by rewrite Hnow, Hl, Hm. }
  unfold Page.db_maintenance_done, Page.db_maintenance_failed.
  split; [|split].
  - destruct (truthy (Status res)); simpl.
    + by rewrite (proj1 (page_exec_msg_add k gs now (VStr "INFO")
                           (Some (VStr "Database Maintenance performed without errors"))
                           Hgs
                           (Hcall (VStr "INFO")
                              (Some (VStr "Database Maintenance performed without errors"))
                              eq_refl eq_refl))).
    + by rewrite (proj1 (page_exec_msg_add k gs now _ _ Hgs
                           (Hcall (VStr "ERROR") _ Hmsg eq_refl))).
  - cbn [negb truthy Status Message].
    rewrite (proj1 (page_exec_msg_add k gs now _ _ Hgs
                      (Hcall (VStr "ERROR") (Some VUndefined)
                         ltac:(by vm_compute) eq_refl))).
    unfold written_row. cbn [default_param]. by rewrite to_string_one.
  - by rewrite (proj1 (page_exec_msg_add k gs now (VStr "ERROR")
                         (Some (VStr "Error performing DB maintenance"))
                         Hgs
                         (Hcall (VStr "ERROR")
                            (Some (VStr "Error performing DB maintenance"))
                            eq_refl eq_refl))).
Qed.

(** X14.  [bl_pat_check] on a blank pattern: when the field holds only
    white space (or nothing), no request is sent and one row is logged,
    with level INFO; otherwise the pattern is posted as typed and the log
    is left alone. *)
Theorem bl_pat_check_blank (now : Date) (txt : list N) (t : Table) :
  exec_value (bl_pat_check now txt) t
  = (if whitespace_pat_test txt then
       Ok (None,
           drop (excess (length t)) t
           ++ [{| timestamp := date_text now; level := "INFO";
                  message := "Blacklist pattern to test is only whitespace" |}])
     else
       Ok (Some {| post_url := "/ajax/blacklist/check"; post_pattern := txt |},
           t))
  ∧ whitespace_pat_test [] = true
  ∧ (whitespace_pat_test txt = true ↔ Forall (λ c, is_white_space c = true) txt).
Proof.
  split; [|split; [done|]].
  - unfold bl_pat_check, exec_value.
    destruct (whitespace_pat_test txt).
    + unfold bind, open. rewrite msg_add_run. unfold ret, contents. simpl.
      by rewrite row_parse.
    + unfold ret, contents, open. simpl. by rewrite row_parse.
  - unfold whitespace_pat_test. rewrite forallb_forall, Forall_forall.
    by setoid_rewrite list_elem_of_In.
Qed.

(** ** The log, with clears *)

(** X15.  The content of the log after any calls of [msg_add] with
    texts without markup and of [msg_clear], from a table of text cells
    within the bound: the newest five, at most, of the rows written
    since the last [msg_clear] (of the initial rows and the rows
    written, when there was none), in call order. *)
Theorem log_content_plain (k : Page.container) (cs : list call)
    (gs : list (list (list Page.cell)))
    (Hgs : tidy gs = true) (Hcs : plain_calls cs = true)
    (Ht : length (concat gs) ≤ max_msg_cnt) :
  Page.exec (Page.perform_all cs) k gs
  = Page.Done (newest (since_clear cs (concat gs))).
Proof.
  rewrite (proj1 (page_exec_all k cs gs Hgs Hcs)).
  by rewrite <- foldl_log_step_newest, newest_short.
Qed.

(** ** Row groups *)

Lemma group_step_appends (args : list (Date * value * option value)) (n : nat) :
  foldl (group_step Page.TableElement) n (appends args) = n + length args.
Proof.
  revert n. induction args as [|a args IH]; intros n; [simpl; lia|].
  unfold appends. rewrite fmap_cons. cbn [foldl group_step].
  fold (appends args). rewrite IH. simpl. lia.
Qed.

(** X16.  Row groups pile up: when [#msg_tbl] is a table, every row
    written comes in a row group ([tbody]) of its own, and a row group
    whose row was evicted stays in the table, empty.  So after [n]
    calls of [msg_add] with texts without markup, from the empty table,
    the table has [n] row groups for its min(n, 5) rows. *)
Theorem row_groups_pile_up (args : list (Date * value * option value))
    (Hplain : forallb plain_args args = true) :
  ∃ gs',
    Page.exec_groups (Page.perform_all (appends args)) Page.TableElement []
    = Page.Done gs'
    ∧ length gs' = length args
    ∧ concat gs' = drop (length args - 5) (written_by <$> args)
    ∧ length (concat gs') = Nat.min (length args) 5.
Proof.
  destruct (page_exec_groups_all Page.TableElement (appends args) [])
    as (gs' & Hrun & Hrows & Hlen);
    [done|by rewrite plain_calls_appends|].
  exists gs'. split; [done|].
  rewrite group_step_appends in Hlen. split; [done|].
  rewrite log_newest in Hrows by (simpl; lia). simpl in Hrows.
  split; [done|].
  rewrite Hrows, length_drop, length_fmap. unfold max_msg_cnt. lia.
Qed.

Lemma row_groups_pile_up_witness :
  forallb plain_args two_plain_calls = true
  ∧ ∃ gs',
      Page.exec_groups (Page.perform_all (appends two_plain_calls))
        Page.TableElement [] = Page.Done gs'
      ∧ length gs' = length two_plain_calls
      ∧ concat gs' = drop (length two_plain_calls - 5)
                       (written_by <$> two_plain_calls)
      ∧ length (concat gs') = Nat.min (length two_plain_calls) 5.
Proof.
  split; [exact two_plain_calls_plain|].
  exact (row_groups_pile_up two_plain_calls two_plain_calls_plain).
Defined.

(** Six calls leave six row groups, the first one empty. *)
Example six_row_groups :
  Page.exec_groups
    (Page.perform_all [Add noon (VStr "a") info; Add noon (VStr "b") error;
                       Add noon (VStr "c") info; Add noon (VStr "d") error;
                       Add noon (VStr "e") info; Add noon (VStr "f") error])
    Page.TableElement []
  = Page.Done [[]; [written_row noon (VStr "b") error];
               [written_row noon (VStr "c") info];
               [written_row noon (VStr "d") error];
               [written_row noon (VStr "e") info];
               [written_row noon (VStr "f") error]].
Proof. by vm_compute. Qed.

(** ** The row model and the page *)

(** X17.  On texts without markup, writing the table out as HTML and
    parsing it again with the row appended comes to appending one row
    element: every sequence of [msg_add] and [msg_clear] calls leaves
    the same rows (cell for cell the date, level and message texts, and
    an empty fourth cell) in the table of rows and in the table as the
    browser holds it, whether [#msg_tbl] is a table or a row group. *)
Theorem row_model_agrees (k : Page.container) (cs : list call) (t : Table)
    (Ht : forallb stable_row t = true) (Hcs : plain_calls cs = true) :
  ∃ t', exec (perform_all cs) t = Ok t'
        ∧ Page.exec (Page.perform_all cs) k [cells_of <$> t]
          = Page.Done (cells_of <$> t').
Proof.
  eexists. split; [apply exec_perform_all|].
  rewrite (proj1 (page_exec_all k cs _ (tidy_cells_of t Ht) Hcs)).
  cbn [concat]. by rewrite app_nil_r, foldl_log_step_cells_of.
Qed.

Lemma five_rows_stable : forallb stable_row five_rows = true.
Proof. by vm_compute. Qed.

Lemma row_model_agrees_witness :
  forallb stable_row five_rows = true
  ∧ plain_calls [Add noon (VStr "f") error; Clear; Add noon VUndefined None] = true
  ∧ ∃ t', exec (perform_all [Add noon (VStr "f") error; Clear;
                             Add noon VUndefined None]) five_rows = Ok t'
          ∧ Page.exec (Page.perform_all [Add noon (VStr "f") error; Clear;
                                         Add noon VUndefined None])
              Page.TableElement [cells_of <$> five_rows]
            = Page.Done (cells_of <$> t').
Proof.
  split; [exact five_rows_stable|]. split; [by vm_compute|].
  exact (row_model_agrees Page.TableElement
           [Add noon (VStr "f") error; Clear; Add noon VUndefined None]
           five_rows five_rows_stable ltac:(by vm_compute)).
Defined.

(** ** Instances *)

Lemma fmtDateNumber_two_digits_witness :
  (0 ≤ 7 ≤ 99)%Z
  ∧ fmtDateNumber 7 = two_digits 7 ∧ String.length (fmtDateNumber 7) = 2.
Proof. split; [lia|]. exact (fmtDateNumber_two_digits 7 ltac:(lia)). Defined.

Lemma calendar_morning : calendar stamp_morning.
Proof. unfold calendar. simpl. lia. Defined.

Lemma calendar_evening : calendar stamp_evening.
Proof. unfold calendar. simpl. lia. Defined.

Lemma timeStampString_layout_witness :
  calendar stamp_morning
  ∧ String.length (timeStampString (StampDate stamp_morning)) = 19.
Proof.
  split; [exact calendar_morning|].
  exact (proj2 (timeStampString_layout stamp_morning calendar_morning)).
Defined.

Lemma timeStampString_order_witness :
  calendar stamp_morning ∧ calendar stamp_evening
  ∧ String.compare (timeStampString (StampDate stamp_morning))
                   (timeStampString (StampDate stamp_evening))
    = chronological stamp_morning stamp_evening.
Proof.
  split; [exact calendar_morning|]. split; [exact calendar_evening|].
  exact (timeStampString_order _ _ calendar_morning calendar_evening).
Defined.

Lemma timeStampString_inj_witness :
  calendar stamp_morning ∧ calendar stamp_morning
  ∧ timeStampString (StampDate stamp_morning)
    = timeStampString (StampDate stamp_morning)
  ∧ stamp_morning = stamp_morning.
Proof.
  split; [exact calendar_morning|]. split; [exact calendar_morning|].
  split; [reflexivity|].
  exact (timeStampString_inj _ _ calendar_morning calendar_morning eq_refl).
Defined.

Lemma safe_two_hours : safe_integer 7384.
Proof. unfold safe_integer. lia. Defined.

Lemma fmtDuration_closed_form_witness :
  safe_integer 7384 ∧ fmtDuration 7384 = Some "2h3m4s".
Proof.
  split; [exact safe_two_hours|].
  exact (fmtDuration_closed_form 7384 safe_two_hours).
Defined.

Lemma fmtDuration_inj_witness :
  fmtDuration 90 = Some "1m30s" ∧ fmtDuration (60 + 30) = Some "1m30s"
  ∧ 90%Z = (60 + 30)%Z.
Proof.
  split; [reflexivity|]. split; [reflexivity|].
  exact (fmtDuration_inj 90 (60 + 30) "1m30s" eq_refl eq_refl).
Defined.

Lemma scale_three_megabytes : scale_of 3145728 2.
Proof. split; by vm_compute. Defined.

Lemma fmtBytes_scaled_witness :
  scale_of 3145728 2
  ∧ ∃ m, (m == 3145728 / kib 2)%Q
         ∧ fmtBytes sample_precision 3145728
           = sample_precision m 3 +:+ " " +:+ to_string (units_at 2).
Proof.
  split; [exact scale_three_megabytes|].
  destruct (proj1 (fmtBytes_scaled sample_precision 3145728 2
                     scale_three_megabytes)) as (m & _ & Hm & _ & Htext).
  by exists m.
Defined.

Lemma fmtBytes_beyond_units_witness :
  (kib 5 <= 2251799813685248)%Q
  ∧ ∃ m, fmtBytes sample_precision 2251799813685248
         = sample_precision m 3 +:+ " undefined".
Proof.
  assert (kib 5 <= 2251799813685248)%Q as Hn by (by vm_compute).
  split; [exact Hn|].
  exact (fmtBytes_beyond_units sample_precision 2251799813685248 Hn).
Defined.

Lemma bl_edit_cancel_restores_witness :
  is_Some (bl_pat_cells bl_page !! 7%Z)
  ∧ Forall (λ e, ¬ touches 7 e)
      [BlEdit 8 "adverts"; BlCheckDone refused; BlValidNotify]
  ∧ plain "spam.*" = true
  ∧ shown <$> bl_pat_cells
      (bl_run (BlEdit 7 "spam.*"
               :: [BlEdit 8 "adverts"; BlCheckDone refused; BlValidNotify]
               ++ [BlEditCancel 7]) bl_page) !! 7%Z
    = Some (Some "spam.*").
Proof.
  assert (is_Some (bl_pat_cells bl_page !! 7%Z)) as Hcell
    by (by exists "spam.*").
  assert (Forall (λ e, ¬ touches 7 e)
            [BlEdit 8 "adverts"; BlCheckDone refused; BlValidNotify]) as Hes
    by (repeat constructor; simpl; (lia || tauto)).
  split; [exact Hcell|]. split; [exact Hes|]. split; [reflexivity|].
  exact (proj1 (proj2 (bl_edit_cancel_restores 7 "spam.*" _ bl_page Hcell Hes
                         eq_refl))).
Defined.

Lemma bl_cancel_nothing_saved_witness :
  is_Some (bl_pat_cells bl_page !! 7%Z)
  ∧ bl_pat_restore bl_page !! 7%Z = None
  ∧ ∃ p', bl_pat_edit_cancel 7 bl_page = Returned p'
          ∧ bl_pat_cells p' !! 7%Z = Some "undefined"
          ∧ bl_pat_restore p' = bl_pat_restore bl_page.
Proof.
  assert (is_Some (bl_pat_cells bl_page !! 7%Z)) as Hcell
    by (by exists "spam.*").
  split; [exact Hcell|]. split; [reflexivity|].
  exact (bl_cancel_nothing_saved 7 bl_page Hcell eq_refl).
Defined.

Lemma bl_missing_cell_witness :
  bl_pat_cells bl_page !! 9%Z = None
  ∧ bl_pat_edit_cancel 9 bl_page = Thrown TypeError bl_page.
Proof.
  split; [reflexivity|].
  exact (proj2 (bl_missing_cell 9 "x" bl_page eq_refl)).
Defined.

Lemma bl_flag_guards_witness :
  flag_guards_result bl_page
  ∧ bl_pat_check_res
      (bl_pat_valid_notify
         (bl_run [BlCheckDone refused; BlEdit 7 "spam.*"] bl_page)) = "".
Proof.
  assert (flag_guards_result bl_page) as Hinv by (intros _; reflexivity).
  split; [exact Hinv|].
  exact (proj1 (proj2 (bl_flag_guards _ bl_page Hinv))).
Defined.

Lemma db_maintenance_row_plain_witness :
  tidy [five_cells] = true
  ∧ plain (date_text noon) = true
  ∧ plain_value (default_param (Some (VStr "disk full")) (VNum 1)) = true
  ∧ Page.exec (Page.db_maintenance_failed noon) Page.TableElement [five_cells]
    = Page.Done (drop (excess (length (concat [five_cells]))) (concat [five_cells])
        ++ [[Page.Text (date_text noon);
             Page.Text "Error performing DB maintenance";
             Page.Text "ERROR"; Page.Text ""]]).
Proof.
  split; [exact five_cells_tidy|]. split; [reflexivity|]. split; [reflexivity|].
  exact (proj2 (proj2 (db_maintenance_row_plain Page.TableElement noon
                         {| Status := VBool false; Message := VStr "disk full" |}
                         [five_cells] five_cells_tidy eq_refl eq_refl))).
Defined.

Lemma log_content_plain_witness :
  tidy [five_cells] = true
  ∧ plain_calls [Add noon (VStr "f") error; Clear; Add noon (VStr "g") info] = true
  ∧ length (concat [five_cells]) ≤ max_msg_cnt
  ∧ Page.exec (Page.perform_all [Add noon (VStr "f") error; Clear;
                                 Add noon (VStr "g") info])
      Page.TableElement [five_cells]
    = Page.Done [written_row noon (VStr "g") info].
Proof.
  split; [exact five_cells_tidy|]. split; [reflexivity|].
  split; [exact (le_n 5)|].
  exact (log_content_plain Page.TableElement
           [Add noon (VStr "f") error; Clear; Add noon (VStr "g") info]
           [five_cells] five_cells_tidy eq_refl (le_n 5)).
Defined.

(** ** Sample runs *)

Example stamp_morning_text :
  timeStampString (StampDate stamp_morning) = "2026-11-02 09:05:00".
Proof. reflexivity. Qed.

Example stamp_string_unchanged :
  timeStampString (StampString "yesterday") = "yesterday".
Proof. reflexivity. Qed.

Example duration_texts :
  fmtDuration <$> [7384; 3600; 119; 59; 0; -5; 2 ^ 53]%Z
  = [Some "2h3m4s"; Some "1h0m0s"; Some "1m59s"; Some "59s"; Some "0s";
     Some "-5s"; None].
Proof. reflexivity. Qed.

Example bytes_units :
  (λ n, (bytes_loop n 0).2) <$> [0; 1023; 1024; 1048576; 1125899906842624]%Q
  = [0; 0; 1; 2; 5].
Proof. reflexivity. Qed.

Example blank_patterns :
  whitespace_pat_test <$> [[]; [32; 9; 160]; [32; 97]]%N = [true; true; false].
Proof. reflexivity. Qed.
